(** * oclapi: list responder, source detail and export views

    A shallow embedding of [oclapi/mixins.py] and [sources/views.py].
    Django, Django REST framework, the S3 client and the celery queue are
    collaborators of the embedded code: what a view calls on them is a
    field of the record that stands for the view, or, for the model
    methods of this repository, is written down from the specification.
    An exception is a value: a view returns [Ok] or [Raise]. *)

From Stdlib Require Import ZArith List String Ascii Bool Lia Permutation Sorted.
From stdpp Require Import base option strings pretty gmap.
Import ListNotations.

Local Open Scope string_scope.
Local Open Scope list_scope.
Local Open Scope Z_scope.

(** ** Python values and exceptions *)

Module Py.

(** The exceptions the embedded code raises, catches or lets through. *)
Inductive exn : Type :=
| Http404
| PermissionDenied
| AttributeError
| AssertionError
| TypeError
| ValueError
| AlreadyQueued.

Inductive result (A : Type) : Type :=
| Ok (a : A)
| Raise (e : exn).
Arguments Ok {A} a.
Arguments Raise {A} e.

#[global] Instance result_ret : MRet result := fun _ a => Ok a.
#[global] Instance result_bind : MBind result := fun _ _ f m =>
  match m with
  | Ok a => f a
  | Raise e => Raise e
  end.

Definition is_ok {A} (r : result A) : bool :=
  match r with Ok _ => true | Raise _ => false end.

(** Truth value of a [str]: the empty string is false. *)
Definition truthy_str (s : string) : bool :=
  match s with EmptyString => false | String _ _ => true end.

(** [d.get(k, False)] used as a condition, for a dict of strings. *)
Definition get_flag (d : gmap string string) (k : string) : bool :=
  match d !! k with
  | Some v => truthy_str v
  | None => false
  end.

End Py.
Import Py.

(** ** HTTP responses *)

(** A response: its status, the headers the view sets on it (the
    defaults of Django, such as the content type, are left out) and its
    data. *)
Record Response (B : Type) : Type := mkResponse {
  status : Z;
  headers : gmap string string;
  data : B
}.
Arguments mkResponse {B} _ _ _.
Arguments status {B} _.
Arguments headers {B} _.
Arguments data {B} _.

(** What the views read of a request. *)
Record Request : Type := mkRequest {
  META : gmap string string;
  QUERY_PARAMS : gmap string string;
  user_is_staff : bool
}.

(** A response with a status and nothing else. *)
Definition HttpResponse (st : Z) : Response unit := mkResponse st ∅ tt.

(** [response[k] = v] *)
Definition set_header {B} (k v : string) (r : Response B) : Response B :=
  mkResponse (status r) (<[k := v]> (headers r)) (data r).

(** ** oclapi/mixins.py *)

Definition HEAD : string := "HEAD".

(** An object may or may not have a [mnemonic] attribute:
    [getattr_mnemonic el = None] is [not hasattr(el, 'mnemonic')]. *)
Class Mnemonic (A : Type) := getattr_mnemonic : A -> option string.

Module ListWithHeadersMixin.

Section PrependHead.
Context {A : Type} `{Mnemonic A}.

Definition hasattr_mnemonic (el : A) : bool :=
  match getattr_mnemonic el with Some _ => true | None => false end.

(** [el.mnemonic] *)
Definition attr_mnemonic (el : A) : result string :=
  match getattr_mnemonic el with
  | Some m => Ok m
  | None => Raise AttributeError
  end.

(** [hasattr(el, 'mnemonic') and el.mnemonic == HEAD] *)
Definition is_head (el : A) : bool :=
  match getattr_mnemonic el with
  | Some m => String.eqb m HEAD
  | None => false
  end.

(** [[el for el in objects if el.mnemonic != HEAD]] *)
Fixpoint non_head (objects : list A) : result (list A) :=
  match objects with
  | [] => Ok []
  | el :: tl =>
      m ← attr_mnemonic el;
      rest ← non_head tl;
      Ok (if String.eqb m HEAD then rest else el :: rest)
  end.

Definition prepend_head (objects : list A) : result (list A) :=
  match objects with
  | [] => Ok objects
  | o0 :: _ =>
      if hasattr_mnemonic o0 then
        let head_el := List.filter is_head objects in
        match head_el with
        | _ :: _ =>
            rest ← non_head objects;
            Ok (head_el ++ rest)
        | [] => Ok objects
        end
      else Ok objects
  end.

End PrependHead.

(** Facet counts: field, then value, then count. *)
Abbreviation Facets := (gmap string (gmap string Z)).

(** Truth value of a dict: the empty dict is false. *)
Definition truthy_facets (f : Facets) : bool := bool_decide (f <> ∅).

(** [self.object_list]: the filtered collection; [facets_attr] is [None]
    when the collection has no [facets] attribute. *)
Record ObjectList (A : Type) : Type := mkObjectList {
  items : Datatypes.list A;
  facets_attr : option Facets
}.
Arguments mkObjectList {A} _ _.
Arguments items {A} _.
Arguments facets_attr {A} _.

(** The body of a list response: the results alone, or
    [{'results': results, 'facets': facets}]. *)
Inductive ListBody (R : Type) : Type :=
| Bare (results : R)
| WithFacets (results : R) (facets : Facets).
Arguments Bare {R} _.
Arguments WithFacets {R} _ _.

(** The two shapes of results: the pagination serializer's data, or the
    plain serializer's list. *)
Inductive Results (D S : Type) : Type :=
| Paginated (d : D)
| Flat (l : Datatypes.list S).
Arguments Paginated {D S} _.
Arguments Flat {D S} _.

(** What [list] calls on [self]; [P] is a page, [D] the data of the
    pagination serializer, [S] a serialized object. *)
Record View (A P D S : Type) : Type := mkView {
  object_list : option (ObjectList A);
  filtered_queryset : ObjectList A;
  get_paginate_by : option Z;
  paginate_queryset : Datatypes.list A -> result (option P);
  get_pagination_serializer : P -> D * gmap string string;
  get_serializer : Datatypes.list A -> Datatypes.list S
}.
Arguments mkView {A P D S} _ _ _ _ _ _.
Arguments object_list {A P D S} _.
Arguments filtered_queryset {A P D S} _.
Arguments get_paginate_by {A P D S} _.
Arguments paginate_queryset {A P D S} _ _.
Arguments get_pagination_serializer {A P D S} _ _.
Arguments get_serializer {A P D S} _ _.

Section List.
Context {A P D S : Type} `{Mnemonic A}.

(** [Response({'results': results, 'facets': facets}, headers=h)] if
    [facets] is true, [Response(results, headers=h)] otherwise. *)
Definition respond (facets : option Facets) (results : Results D S)
    (h : gmap string string) : Response (ListBody (Results D S)) :=
  match facets with
  | Some f =>
      if truthy_facets f then mkResponse 200 h (WithFacets results f)
      else mkResponse 200 h (Bare results)
  | None => mkResponse 200 h (Bare results)
  end.

Definition list (self : View A P D S) (request : Request)
    : result (Response (ListBody (Results D S))) :=
  let object_list :=
    match object_list self with
    | Some ol => ol
    | None => filtered_queryset self
    end in
  let meta := META request in
  let include_facets := get_flag meta "HTTP_INCLUDEFACETS" in
  let facets :=
    if include_facets then facets_attr object_list else None in
  let compress := get_flag meta "HTTP_COMPRESS" in
  let return_all :=
    match get_paginate_by self with
    | Some n => n =? 0
    | None => false
    end in
  let skip_pagination := compress || return_all in
  let standard :=
    objects ← prepend_head (items object_list);
    Ok (respond facets (Flat (get_serializer self objects)) ∅) in
  if negb skip_pagination then
    objects ← prepend_head (items object_list);
    page ← paginate_queryset self objects;
    match page with
    | Some page =>
        let serializer := get_pagination_serializer self page in
        Ok (respond facets (Paginated (fst serializer)) (snd serializer))
    | None => standard
    end
  else standard.

End List.

End ListWithHeadersMixin.

(** ** sources/views.py: the data the views read *)

(** A point in time, as a number of time units. *)
Abbreviation datetime := Z.

Record Source : Type := mkSource {
  source_id : Z;
  source_mnemonic : string
}.

Record SourceVersion : Type := mkSourceVersion {
  id : Z;
  mnemonic : string;
  created_at : datetime;
  released : bool;
  is_active : bool;
  last_child_update : datetime;
  concepts : list Z;
  mappings : list Z
}.

#[global] Instance SourceVersion_mnemonic : Mnemonic SourceVersion :=
  fun v => Some (mnemonic v).

Record ConceptVersion : Type := mkConceptVersion {
  concept_id : Z;
  concept_is_active : bool;
  concept_retired : bool;
  concept_updated_at : datetime
}.

Record Mapping : Type := mkMapping {
  mapping_id : Z;
  mapping_is_active : bool;
  mapping_retired : bool;
  mapping_updated_at : datetime
}.

(** [id__in=ids] *)
Definition id_in (ids : list Z) (i : Z) : bool := existsb (Z.eqb i) ids.

(** [queryset[start:stop]]: Django refuses negative bounds, and an empty
    window comes back when [stop] is below [start]. *)
Definition slice {X : Type} (queryset : list X) (start stop : Z)
    : result (list X) :=
  if (0 <=? start) && (0 <=? stop) then
    Ok (firstn (Z.to_nat (stop - start)) (skipn (Z.to_nat start) queryset))
  else Raise AssertionError.

(** Python 2's [min] on two values that are an integer or [None]: [None]
    is below every integer. *)
Definition py_min (a b : option Z) : option Z :=
  match a, b with
  | Some x, Some y => Some (Z.min x y)
  | _, _ => None
  end.

(** [offset + limit]: adding [None] to an integer is a [TypeError]. *)
Definition py_add (a : Z) (b : option Z) : result Z :=
  match b with
  | Some y => Ok (a + y)
  | None => Raise TypeError
  end.

Definition INCLUDE_CONCEPTS_PARAM : string := "includeConcepts".
Definition INCLUDE_MAPPINGS_PARAM : string := "includeMappings".
Definition INCLUDE_RETIRED_PARAM : string := "includeRetired".
Definition OFFSET_PARAM : string := "offset".
Definition DEFAULT_OFFSET : Z := 0.

(** ** SourceRetrieveUpdateDestroyView *)

Module SourceRetrieveUpdateDestroyView.

(** The body of the detail response: the serialized source, with the
    [concepts] and [mappings] keys when they were set. *)
Record Data (B C M : Type) : Type := mkData {
  base : B;
  data_concepts : option C;
  data_mappings : option M
}.
Arguments mkData {B C M} _ _ _.
Arguments base {B C M} _.
Arguments data_concepts {B C M} _.
Arguments data_mappings {B C M} _.

(** What [retrieve] calls outside this file: [B], [C] and [M] are the
    data of the three serializers. *)
Record View (B C M : Type) : Type := mkView {
  get_object : result Source;
  get_serializer : Source -> B;
  int : string -> result Z;
  MAX_PAGINATE_BY : option Z;
  paginate_by : option Z;
  get_paginate_by : option Z;
  get_latest_version_of : Source -> result SourceVersion;
  parse_updated_since_param : Request -> option datetime;
  ConceptVersion_objects : list ConceptVersion;
  Mapping_objects : list Mapping;
  ConceptVersionDetailSerializer : list ConceptVersion -> C;
  MappingDetailSerializer : list Mapping -> M
}.
Arguments mkView {B C M} _ _ _ _ _ _ _ _ _ _ _ _.
Arguments get_object {B C M} _.
Arguments get_serializer {B C M} _ _.
Arguments int {B C M} _ _.
Arguments MAX_PAGINATE_BY {B C M} _.
Arguments paginate_by {B C M} _.
Arguments get_paginate_by {B C M} _.
Arguments get_latest_version_of {B C M} _ _.
Arguments parse_updated_since_param {B C M} _ _.
Arguments ConceptVersion_objects {B C M} _.
Arguments Mapping_objects {B C M} _.
Arguments ConceptVersionDetailSerializer {B C M} _ _.
Arguments MappingDetailSerializer {B C M} _ _.

(** [if paginate_by:] for an integer or [None]. *)
Definition truthy_int (n : option Z) : bool :=
  match n with
  | Some n => negb (n =? 0)
  | None => false
  end.

Section Retrieve.
Context {B C M : Type}.

(** Lines 67-71: the offset of the request; a [ValueError] of [int] is
    caught, any other exception goes through. *)
Definition parse_offset (self : View B C M) (request : Request) : result Z :=
  match QUERY_PARAMS request !! OFFSET_PARAM with
  | None => Ok DEFAULT_OFFSET
  | Some offset =>
      match int self offset with
      | Ok n => Ok n
      | Raise ValueError => Ok DEFAULT_OFFSET
      | Raise e => Raise e
      end
  end.

(** Lines 85-95: the [concepts] key. *)
Definition concepts_of (self : View B C M) (source_version : SourceVersion)
    (include_retired : bool) (updated_since : option datetime)
    (offset : Z) (limit : option Z) : result C :=
  let source_version_concepts := concepts source_version in
  let queryset := List.filter concept_is_active (ConceptVersion_objects self) in
  let queryset :=
    if negb include_retired
    then List.filter (fun c => negb (concept_retired c)) queryset
    else queryset in
  let queryset :=
    match updated_since with
    | Some since => List.filter (fun c => since <=? concept_updated_at c) queryset
    | None => queryset
    end in
  let queryset :=
    List.filter (fun c => id_in source_version_concepts (concept_id c)) queryset in
  stop ← py_add offset limit;
  queryset ← slice queryset offset stop;
  Ok (ConceptVersionDetailSerializer self queryset).

(** Lines 97-107: the [mappings] key. *)
Definition mappings_of (self : View B C M) (source_version : SourceVersion)
    (include_retired : bool) (updated_since : option datetime)
    (offset : Z) (limit : option Z) : result M :=
  let all_children := mappings source_version in
  let queryset := List.filter mapping_is_active (Mapping_objects self) in
  let queryset :=
    if negb include_retired
    then List.filter (fun m => negb (mapping_retired m)) queryset
    else queryset in
  let queryset :=
    List.filter (fun m => id_in all_children (mapping_id m)) queryset in
  let queryset :=
    match updated_since with
    | Some since => List.filter (fun m => since <=? mapping_updated_at m) queryset
    | None => queryset
    end in
  stop ← py_add offset limit;
  queryset ← slice queryset offset stop;
  Ok (MappingDetailSerializer self queryset).

Definition retrieve (self : View B C M) (request : Request)
    : result (Response (Data B C M)) :=
  _ ← get_object self;
  object ← get_object self;
  let data := get_serializer self object in
  offset ← parse_offset self request;
  let limit :=
    match MAX_PAGINATE_BY self with
    | Some m => Some m
    | None => paginate_by self
    end in
  let include_concepts := get_flag (QUERY_PARAMS request) INCLUDE_CONCEPTS_PARAM in
  let include_mappings := get_flag (QUERY_PARAMS request) INCLUDE_MAPPINGS_PARAM in
  '(source_version, limit, include_retired, updated_since) ←
    (if include_concepts || include_mappings then
       source_version ← get_latest_version_of self object;
       let paginate_by := get_paginate_by self in
       let limit :=
         if truthy_int paginate_by then py_min limit paginate_by else limit in
       let include_retired :=
         get_flag (QUERY_PARAMS request) INCLUDE_RETIRED_PARAM in
       let updated_since := parse_updated_since_param self request in
       Ok (Some source_version, limit, include_retired, updated_since)
     else Ok (None, limit, false, None));
  data_concepts ←
    (if include_concepts then
       match source_version with
       | Some source_version =>
           c ← concepts_of self source_version include_retired updated_since
                 offset limit;
           Ok (Some c)
       | None => Raise AttributeError
       end
     else Ok None);
  data_mappings ←
    (if include_mappings then
       match source_version with
       | Some source_version =>
           m ← mappings_of self source_version include_retired updated_since
                 offset limit;
           Ok (Some m)
       | None => Raise AttributeError
       end
     else Ok None);
  Ok (mkResponse 200 ∅ (mkData data data_concepts data_mappings)).

End Retrieve.

End SourceRetrieveUpdateDestroyView.

(** ** The stores behind the version views *)

(** An access to the object store. *)
Inductive StoreOp : Type :=
| GetKey (path : string)
| DeleteKey (path : string).

(** The state the views share: the version documents by id, the keys of
    the export bucket with the log of the accesses to it, and the export
    queue: the version ids with a job in flight and the jobs enqueued,
    newest first. *)
Record World : Type := mkWorld {
  versions : gmap Z SourceVersion;
  bucket : gset string;
  store_log : list StoreOp;
  in_flight : gset Z;
  enqueued : list Z
}.

(** A computation on the world that returns or raises. *)
Definition M (A : Type) : Type := World -> result A * World.

Definition ret {A} (a : A) : M A := fun w => (Ok a, w).

Definition raise {A} (e : exn) : M A := fun w => (Raise e, w).

Definition bind {A B} (m : M A) (f : A -> M B) : M B := fun w =>
  match m w with
  | (Ok a, w') => f a w'
  | (Raise e, w') => (Raise e, w')
  end.

(** A lookup whose outcome does not depend on the world. *)
Definition lift {A} (r : result A) : M A := fun w => (r, w).

Notation "x <~ m ;; k" := (bind m (fun x => k))
  (at level 100, m at next level, right associativity).

Definition set_versions (f : gmap Z SourceVersion -> gmap Z SourceVersion)
    (w : World) : World :=
  mkWorld (f (versions w)) (bucket w) (store_log w) (in_flight w) (enqueued w).

Definition set_bucket (f : gset string -> gset string) (w : World) : World :=
  mkWorld (versions w) (f (bucket w)) (store_log w) (in_flight w) (enqueued w).

Definition log_store (op : StoreOp) (w : World) : World :=
  mkWorld (versions w) (bucket w) (op :: store_log w) (in_flight w) (enqueued w).

Definition enqueue (vid : Z) (w : World) : World :=
  mkWorld (versions w) (bucket w) (store_log w) ({[vid]} ∪ in_flight w)
    (vid :: enqueued w).

(** ** SourceVersionRetrieveUpdateView *)

Module SourceVersionRetrieveUpdateView.

(** What [get_object] calls on [self]: [get_queryset] is the queryset of
    the view in the order of the store, [order_by_created_at] is
    [order_by('-created_at')] on it, [filter_backend] the test the filter
    backends add, and [super_get_object] the lookup of the parent class. *)
Record View : Type := mkView {
  is_latest : bool;
  get_queryset : list SourceVersion;
  order_by_created_at : list SourceVersion -> list SourceVersion;
  filter_backend : SourceVersion -> bool;
  check_object_permissions : SourceVersion -> result unit;
  super_get_object : option (list SourceVersion) -> result SourceVersion
}.

(** Django's [get_list_or_404(queryset, **filter_kwargs)]. *)
Definition get_list_or_404 (queryset : list SourceVersion)
    (filter_kwargs : SourceVersion -> bool) : result (list SourceVersion) :=
  match List.filter filter_kwargs queryset with
  | [] => Raise Http404
  | obj_list => Ok obj_list
  end.

Definition get_object (self : View) (queryset : option (list SourceVersion))
    : result SourceVersion :=
  if is_latest self then
    let queryset :=
      match queryset with
      | None =>
          List.filter (filter_backend self)
            (order_by_created_at self (get_queryset self))
      | Some queryset => queryset
      end in
    let filter_kwargs := released in
    obj_list ← get_list_or_404 queryset filter_kwargs;
    match obj_list with
    | obj :: _ =>
        _ ← check_object_permissions self obj;
        Ok obj
    | [] => Raise Http404
    end
  else super_get_object self queryset.

End SourceVersionRetrieveUpdateView.

(** ** SourceVersionRetrieveUpdateDestroyView *)

Module SourceVersionRetrieveUpdateDestroyView.
Import SourceVersionRetrieveUpdateView.

(** The body of the response of [destroy]: an error dict or nothing. *)
Abbreviation Errors := (option (gmap string (list string))).

Definition released_message : string :=
  "Cannot deactivate a version that is currently released.  Please release another version before deactivating this one.".

Definition deactivate (v : SourceVersion) : SourceVersion :=
  mkSourceVersion (id v) (mnemonic v) (created_at v) (released v) false
    (last_child_update v) (concepts v) (mappings v).

(** Modelled from the spec: the [destroy] of the parent classes, which is
    not in the two files embedded here. Section 3 has destruction as a
    soft flag flip ([is_active=false]); the response is the 204 of a
    delete. *)
Definition super_destroy (self : View) : M (Response Errors) :=
  version <~ lift (get_object self None) ;;
  fun w =>
    (Ok (mkResponse 204 ∅ None),
     set_versions (insert (id version) (deactivate version)) w).

Definition destroy (self : View) : M (Response Errors) :=
  version <~ lift (get_object self None) ;;
  if released version then
    let errors : gmap string (list string) :=
      {[ "non_field_errors" := [released_message] ]} in
    ret (mkResponse 400 ∅ (Some errors))
  else super_destroy self.

End SourceVersionRetrieveUpdateDestroyView.

(** ** SourceVersionExportView *)

Module SourceVersionExportView.

(** What the export view calls outside this file: [get_object] is the
    outcome of the lookup of the version of the request, [export_path]
    the path of the artifact of a version in the bucket, [generate_url]
    the signed URL of a key for a number of time units. *)
Record View : Type := mkView {
  get_object : result SourceVersion;
  export_path : SourceVersion -> string;
  generate_url : string -> Z -> string;
  isoformat : datetime -> string;
  TIME_ZONE : string
}.

(** Modelled from the spec: [version.get_export_key()], a model method
    that is not in the two files embedded here. Section 4.5 has the
    artifact of a version as a key of the object store and section 4.6
    puts it under a deterministic per-version path: the key, when the
    bucket has it, and [None] otherwise. *)
Definition get_export_key (self : View) (version : SourceVersion)
    : M (option string) := fun w =>
  let path := export_path self version in
  (Ok (if decide (path ∈ bucket w) then Some path else None),
   log_store (GetKey path) w).

(** Modelled from the spec: [version.has_export()], whether an artifact
    exists for the version (section 4.5). *)
Definition has_export (self : View) (version : SourceVersion) : M bool :=
  key <~ get_export_key self version ;;
  ret (match key with Some _ => true | None => false end).

(** Modelled from the spec: [key.delete()], the [delete] of the object
    store (section 6). *)
Definition key_delete (key : string) : M unit := fun w =>
  (Ok tt, log_store (DeleteKey key) (set_bucket (fun b => b ∖ {[key]}) w)).

(** Modelled from the spec: [export_source.delay(id)], the
    [enqueueExport] of section 4.6: accepted, or [AlreadyQueued] when a
    job for the same version is in flight, and then nothing is enqueued. *)
Definition export_source_delay (vid : Z) : M unit := fun w =>
  if decide (vid ∈ in_flight w) then (Raise AlreadyQueued, w)
  else (Ok tt, enqueue vid w).

Definition HttpResponseForbidden : Response unit := HttpResponse 403.

(** [str(url)], as Django stores a header value. *)
Definition str_of_url (url : option string) : string :=
  match url with
  | Some u => u
  | None => "None"
  end.

Definition handle_export_source_version (self : View) : M Z :=
  version <~ lift (get_object self) ;;
  fun w =>
    match export_source_delay (id version) w with
    | (Ok _, w') => (Ok 200, w')
    | (Raise AlreadyQueued, w') => (Ok 204, w')
    | (Raise e, w') => (Raise e, w')
    end.

Definition get (self : View) (request : Request) : M (Response unit) :=
  version <~ lift (get_object self) ;;
  key <~ get_export_key self version ;;
  if String.eqb (mnemonic version) "HEAD" then ret (HttpResponse 405)
  else
    url_status <~ match key with
                  | Some key => ret (Some (generate_url self key 60), 200)
                  | None =>
                      status <~ handle_export_source_version self ;;
                      ret (None, status)
                  end ;;
    let (url, status) := (url_status : option string * Z) in
    let response := HttpResponse status in
    let response := set_header "Location" (str_of_url url) response in
    let response :=
      set_header "Cache-Control" "no-cache, no-store, must-revalidate" response in
    let response := set_header "Pragma" "no-cache" response in
    let response := set_header "Expires" "0" response in
    let response :=
      set_header "lastUpdated" (isoformat self (last_child_update version))
        response in
    let response := set_header "lastUpdatedTimezone" (TIME_ZONE self) response in
    ret response.

Definition post (self : View) (request : Request) : M (Response unit) :=
  version <~ lift (get_object self) ;;
  if String.eqb (mnemonic version) "HEAD" then ret (HttpResponse 405)
  else
    exported <~ has_export self version ;;
    status <~ (if negb exported then handle_export_source_version self
               else ret 204) ;;
    ret (HttpResponse status).

Definition delete (self : View) (request : Request) : M (Response unit) :=
  if negb (user_is_staff request) then ret HttpResponseForbidden
  else
    version <~ lift (get_object self) ;;
    exported <~ has_export self version ;;
    _ <~ (if exported then
            key <~ get_export_key self version ;;
            match key with
            | Some key => key_delete key
            | None => raise AttributeError
            end
          else ret tt) ;;
    ret (HttpResponse 204).

End SourceVersionExportView.

(** ** Words of the specification, and objects to run the code on *)

(** An object of some model: a primary key and, for the models that have
    one, a mnemonic. *)
Record Obj : Type := mkObj {
  obj_pk : Z;
  obj_mnemonic : option string
}.

#[global] Instance Obj_mnemonic : Mnemonic Obj := obj_mnemonic.

(** The HEAD elements in their order, then the others in theirs. *)
Definition heads_first {A} `{Mnemonic A} (l : list A) : list A :=
  List.filter ListWithHeadersMixin.is_head l
  ++ List.filter (fun el => negb (ListWithHeadersMixin.is_head el)) l.

(** Some element of the list has the mnemonic HEAD. *)
Definition has_head {A} `{Mnemonic A} (l : list A) : Prop :=
  exists el, In el l /\ getattr_mnemonic el = Some HEAD.

(** The words of the facets claim. The request carries the include-facets
    header (whatever its value), or signals it (the value is not empty);
    the collection exposes facet data when it has a [facets] attribute
    that is not empty. *)
Definition INCLUDE_FACETS : string := "HTTP_INCLUDEFACETS".

Definition carries_include_facets (request : Request) : Prop :=
  is_Some (META request !! INCLUDE_FACETS).

Definition signals_include_facets (request : Request) : Prop :=
  exists v, META request !! INCLUDE_FACETS = Some v /\ v <> "".

Definition exposes_facet_data {A} (ol : ListWithHeadersMixin.ObjectList A)
    : Prop :=
  exists f, ListWithHeadersMixin.facets_attr ol = Some f /\ f <> ∅.

Definition has_facets {R} (body : ListWithHeadersMixin.ListBody R) : bool :=
  match body with
  | ListWithHeadersMixin.WithFacets _ _ => true
  | ListWithHeadersMixin.Bare _ => false
  end.

(** The collection [list] works on. *)
Definition collection {A P D S} (self : ListWithHeadersMixin.View A P D S)
    : ListWithHeadersMixin.ObjectList A :=
  match ListWithHeadersMixin.object_list self with
  | Some ol => ol
  | None => ListWithHeadersMixin.filtered_queryset self
  end.

(** The facets [list] keeps: those of the collection when the header is
    a true value and the collection has the attribute. *)
Definition kept_facets {A P D S} (self : ListWithHeadersMixin.View A P D S)
    (request : Request) : option ListWithHeadersMixin.Facets :=
  if get_flag (META request) INCLUDE_FACETS
  then ListWithHeadersMixin.facets_attr (collection self)
  else None.

(** A list view over three versions with facet counts, pages of two. *)
Definition example_facets : ListWithHeadersMixin.Facets :=
  {[ "locale" := {[ "en" := 3 ]} ]}.

Definition example_list_view
    : ListWithHeadersMixin.View Obj (list Obj) (Z * list Z) Z :=
  ListWithHeadersMixin.mkView None
    (ListWithHeadersMixin.mkObjectList
       [mkObj 1 (Some "v1"); mkObj 2 (Some "HEAD"); mkObj 3 (Some "v2")]
       (Some example_facets))
    (Some 2)
    (fun objects => Ok (Some (firstn 2 objects)))
    (fun page => ((2, map obj_pk page), ∅))
    (map obj_pk).

Definition request_with_meta (meta : gmap string string) : Request :=
  mkRequest meta ∅ false.

(** The released versions [get_object] chooses from, in the order of
    the store. *)
Definition released_pool (self : SourceVersionRetrieveUpdateView.View)
    : list SourceVersion :=
  List.filter released
    (List.filter (SourceVersionRetrieveUpdateView.filter_backend self)
       (SourceVersionRetrieveUpdateView.get_queryset self)).

(** What [order_by('-created_at')] promises of its result on the
    queryset of the view: the same versions, newest first. Nothing is
    promised on the order of versions created at the same time. *)
Definition newest_first (l : list SourceVersion) : Prop :=
  Sorted (fun a b => created_at b <= created_at a) l.

Definition orders_queryset (self : SourceVersionRetrieveUpdateView.View)
    : Prop :=
  let queryset := SourceVersionRetrieveUpdateView.get_queryset self in
  Permutation queryset
    (SourceVersionRetrieveUpdateView.order_by_created_at self queryset)
  /\ newest_first
       (SourceVersionRetrieveUpdateView.order_by_created_at self queryset).

(** An ordering that keeps the order of the store among versions created
    at the same time, as a stable sort does. *)
Fixpoint insert_newest_first (v : SourceVersion) (l : list SourceVersion)
    : list SourceVersion :=
  match l with
  | [] => [v]
  | u :: tl =>
      if created_at u <=? created_at v then v :: l
      else u :: insert_newest_first v tl
  end.

Definition sort_newest_first (l : list SourceVersion) : list SourceVersion :=
  fold_right insert_newest_first [] l.

(** Versions of one source: HEAD, and two released versions created at
    the same time, in the order they were inserted. *)
Definition version_head : SourceVersion :=
  mkSourceVersion 1 "HEAD" 10 false true 30 [1; 2; 3] [7; 8].
Definition version_1 : SourceVersion :=
  mkSourceVersion 2 "v1" 20 true true 21 [1; 2] [7].
Definition version_2 : SourceVersion :=
  mkSourceVersion 3 "v2" 20 true true 22 [1; 2; 3] [7; 8].

Definition latest_view (queryset : list SourceVersion)
    : SourceVersionRetrieveUpdateView.View :=
  SourceVersionRetrieveUpdateView.mkView true queryset sort_newest_first
    (fun _ => true) (fun _ => Ok tt) (fun _ => Raise Http404).

(** The response [get] builds at its end, for a URL and a status. *)
Definition export_response (self : SourceVersionExportView.View)
    (version : SourceVersion) (url : option string) (st : Z) : Response unit :=
  set_header "lastUpdatedTimezone" (SourceVersionExportView.TIME_ZONE self)
    (set_header "lastUpdated"
       (SourceVersionExportView.isoformat self (last_child_update version))
       (set_header "Expires" "0"
          (set_header "Pragma" "no-cache"
             (set_header "Cache-Control" "no-cache, no-store, must-revalidate"
                (set_header "Location"
                   (SourceVersionExportView.str_of_url url)
                   (HttpResponse st)))))).

(** The no-cache directives and the pair of headers on the last child
    update of a version. *)
Definition carries_export_headers (self : SourceVersionExportView.View)
    (version : SourceVersion) (r : Response unit) : Prop :=
  headers r !! "Cache-Control" = Some "no-cache, no-store, must-revalidate"
  /\ headers r !! "Pragma" = Some "no-cache"
  /\ headers r !! "Expires" = Some "0"
  /\ headers r !! "lastUpdated"
     = Some (SourceVersionExportView.isoformat self (last_child_update version))
  /\ headers r !! "lastUpdatedTimezone"
     = Some (SourceVersionExportView.TIME_ZONE self).

(** An export view on a version that the lookup finds, and worlds to run
    it in: nothing stored, the artifact stored, a job in flight. *)
Definition export_view (version : SourceVersion)
    : SourceVersionExportView.View :=
  SourceVersionExportView.mkView (Ok version)
    (fun v => "export/" ++ mnemonic v)%string
    (fun key ttl => "https://bucket/" ++ key ++ "?ttl=" ++ pretty ttl)%string
    (fun t => pretty t)
    "UTC".

Definition world_empty : World := mkWorld ∅ ∅ [] ∅ [].
Definition world_exported (path : string) : World :=
  mkWorld ∅ {[ path ]} [] ∅ [].
Definition world_queued (vid : Z) : World := mkWorld ∅ ∅ [] {[ vid ]} [vid].

Definition request_of (staff : bool) : Request := mkRequest ∅ ∅ staff.

(** A version view whose lookup finds the version of the path. *)
Definition version_view (version : SourceVersion)
    : SourceVersionRetrieveUpdateView.View :=
  SourceVersionRetrieveUpdateView.mkView false [version] sort_newest_first
    (fun _ => true) (fun _ => Ok tt) (fun _ => Ok version).

Definition world_of_versions (l : list SourceVersion) (keys : gset string)
    : World :=
  mkWorld (list_to_map (map (fun v => (id v, v)) l)) keys [] ∅ [].

(** *** The detail assembler, in the words of section 4.3 *)

(** A child of a version: a concept version or a mapping. *)
Class Child (X : Type) : Type := mkChild {
  child_id : X -> Z;
  child_is_active : X -> bool;
  child_retired : X -> bool;
  child_updated_at : X -> datetime
}.

#[global] Instance ConceptVersion_child : Child ConceptVersion :=
  mkChild ConceptVersion concept_id concept_is_active concept_retired
    concept_updated_at.

#[global] Instance Mapping_child : Child Mapping :=
  mkChild Mapping mapping_id mapping_is_active mapping_retired
    mapping_updated_at.

(** The children a version includes: the active children whose id is in
    the child-id set of the version, without the retired ones unless
    [include_retired], and updated at or after [updated_since] when
    there is one. *)
Definition included_child {X} `{Child X} (ids : list Z) (include_retired : bool)
    (updated_since : option datetime) (c : X) : bool :=
  child_is_active c
  && id_in ids (child_id c)
  && (include_retired || negb (child_retired c))
  && match updated_since with
     | Some since => since <=? child_updated_at c
     | None => true
     end.

(** The window of [limit] children from [offset] on. *)
Definition child_window {X} `{Child X} (objects : list X) (ids : list Z)
    (include_retired : bool) (updated_since : option datetime)
    (offset : Z) (limit : option Z) : result (list X) :=
  stop ← py_add offset limit;
  slice (List.filter (included_child ids include_retired updated_since) objects)
    offset stop.

(** The limit of the window: the configured maximum page size, or the
    page size of the view without one, capped by the page size of the
    paginator when it has one. *)
Definition window_limit {B C M}
    (self : SourceRetrieveUpdateDestroyView.View B C M) : option Z :=
  let limit :=
    match SourceRetrieveUpdateDestroyView.MAX_PAGINATE_BY self with
    | Some m => Some m
    | None => SourceRetrieveUpdateDestroyView.paginate_by self
    end in
  if SourceRetrieveUpdateDestroyView.truthy_int
       (SourceRetrieveUpdateDestroyView.get_paginate_by self)
  then py_min limit (SourceRetrieveUpdateDestroyView.get_paginate_by self)
  else limit.

Definition include_concepts (request : Request) : bool :=
  get_flag (QUERY_PARAMS request) INCLUDE_CONCEPTS_PARAM.
Definition include_mappings (request : Request) : bool :=
  get_flag (QUERY_PARAMS request) INCLUDE_MAPPINGS_PARAM.
Definition include_retired (request : Request) : bool :=
  get_flag (QUERY_PARAMS request) INCLUDE_RETIRED_PARAM.

(** The detail response: the base representation, and for each child
    type that is requested the window of the included children of the
    latest version, under [concepts] or [mappings]. *)
Definition detail_assembler {B C M}
    (self : SourceRetrieveUpdateDestroyView.View B C M) (request : Request)
    : result (Response (SourceRetrieveUpdateDestroyView.Data B C M)) :=
  object ← SourceRetrieveUpdateDestroyView.get_object self;
  offset ← SourceRetrieveUpdateDestroyView.parse_offset self request;
  let base := SourceRetrieveUpdateDestroyView.get_serializer self object in
  if include_concepts request || include_mappings request then
    latest ← SourceRetrieveUpdateDestroyView.get_latest_version_of self object;
    let updated_since :=
      SourceRetrieveUpdateDestroyView.parse_updated_since_param self request in
    let window {X} `{Child X} (objects : list X) (ids : list Z) :=
      child_window objects ids (include_retired request) updated_since
        offset (window_limit self) in
    cs ← (if include_concepts request then
            cs ← window (SourceRetrieveUpdateDestroyView.ConceptVersion_objects self)
                   (concepts latest);
            Ok (Some (SourceRetrieveUpdateDestroyView.ConceptVersionDetailSerializer
                        self cs))
          else Ok None);
    ms ← (if include_mappings request then
            ms ← window (SourceRetrieveUpdateDestroyView.Mapping_objects self)
                   (mappings latest);
            Ok (Some (SourceRetrieveUpdateDestroyView.MappingDetailSerializer
                        self ms))
          else Ok None);
    Ok (mkResponse 200 ∅ (SourceRetrieveUpdateDestroyView.mkData base cs ms))
  else
    Ok (mkResponse 200 ∅ (SourceRetrieveUpdateDestroyView.mkData base None None)).

(** The view with another [int]. *)
Definition with_int {B C M} (self : SourceRetrieveUpdateDestroyView.View B C M)
    (f : string -> result Z) : SourceRetrieveUpdateDestroyView.View B C M :=
  SourceRetrieveUpdateDestroyView.mkView
    (SourceRetrieveUpdateDestroyView.get_object self)
    (SourceRetrieveUpdateDestroyView.get_serializer self)
    f
    (SourceRetrieveUpdateDestroyView.MAX_PAGINATE_BY self)
    (SourceRetrieveUpdateDestroyView.paginate_by self)
    (SourceRetrieveUpdateDestroyView.get_paginate_by self)
    (SourceRetrieveUpdateDestroyView.get_latest_version_of self)
    (SourceRetrieveUpdateDestroyView.parse_updated_since_param self)
    (SourceRetrieveUpdateDestroyView.ConceptVersion_objects self)
    (SourceRetrieveUpdateDestroyView.Mapping_objects self)
    (SourceRetrieveUpdateDestroyView.ConceptVersionDetailSerializer self)
    (SourceRetrieveUpdateDestroyView.MappingDetailSerializer self).

(** An [int] to run the detail view with: decimal digits and nothing
    else; anything else is a [ValueError]. *)
Definition digit (c : ascii) : option Z :=
  let n := Z.of_nat (nat_of_ascii c) in
  if (48 <=? n) && (n <=? 57) then Some (n - 48) else None.

Fixpoint digits (s : string) (acc : Z) : option Z :=
  match s with
  | EmptyString => Some acc
  | String c s' =>
      match digit c with
      | Some d => digits s' (10 * acc + d)
      | None => None
      end
  end.

Definition int_decimal (s : string) : result Z :=
  match s with
  | EmptyString => Raise ValueError
  | _ =>
      match digits s 0 with
      | Some n => Ok n
      | None => Raise ValueError
      end
  end.

(** A detail view on a source whose latest version is [version_2], with
    three concepts, one of them retired, and two mappings. *)
Definition example_concepts : list ConceptVersion :=
  [mkConceptVersion 1 true false 5; mkConceptVersion 2 true true 6;
   mkConceptVersion 3 true false 7; mkConceptVersion 4 true false 8].

Definition example_mappings : list Mapping :=
  [mkMapping 7 true false 5; mkMapping 8 true false 9;
   mkMapping 9 true false 9].

Definition example_detail_view
    : SourceRetrieveUpdateDestroyView.View string (list Z) (list Z) :=
  SourceRetrieveUpdateDestroyView.mkView
    (Ok (mkSource 1 "ICD-10")) source_mnemonic int_decimal
    (Some 100) (Some 10) (Some 2)
    (fun _ => Ok version_2) (fun _ => None)
    example_concepts example_mappings
    (map concept_id) (map mapping_id).

Definition request_with_query (query : gmap string string) : Request :=
  mkRequest ∅ query false.

Definition example_detail_query : gmap string string :=
  {[ "includeConcepts" := "true"; "includeMappings" := "true";
     "offset" := "abc" ]}.

(** ** oclapi/mixins.py: PathWalkerMixin *)

Module PathWalkerMixin.

(** A [str], as the list of its characters. *)
Abbreviation str := (list ascii).

Definition slash : ascii := "/"%char.

(** The highest index of [c] in [s]. *)
Fixpoint rfind (c : ascii) (s : str) : option nat :=
  match s with
  | [] => None
  | x :: tl =>
      match rfind c tl with
      | Some i => Some (S i)
      | None => if Ascii.eqb x c then Some O else None
      end
  end.

(** The bound [stop] of a slice of [s], as Python reads it: a negative
    bound counts from the end, and a bound outside the string is cut
    back to it. *)
Definition clamp (s : str) (stop : Z) : nat :=
  let n := Z.of_nat (length s) in
  Z.to_nat (if stop <? 0 then Z.max 0 (stop + n) else Z.min stop n).

(** [s.rindex('/')] when [stop] is [None], and [s.rindex('/', 0, stop)]:
    the highest index of a slash in the slice, or a [ValueError]. *)
Definition rindex (s : str) (stop : option Z) : result Z :=
  let window :=
    match stop with
    | None => s
    | Some stop => firstn (clamp s stop) s
    end in
  match rfind slash window with
  | Some i => Ok (Z.of_nat i)
  | None => Raise ValueError
  end.

(** [s[0:stop]] *)
Definition slice_to (s : str) (stop : Z) : str := firstn (clamp s stop) s.

(** The body of the [while] loop, [n] times. *)
Fixpoint walk (n : nat) (path_info : str) : result str :=
  match n with
  | O => Ok path_info
  | S n =>
      let last_index := Z.of_nat (length path_info) - 1 in
      last_slash ← rindex path_info (Some last_index);
      let path_info := slice_to path_info (last_slash + 1) in
      walk n path_info
  end.

(** The loop runs while [i < levels], from [i = 1]: [levels - 1] times. *)
Definition get_parent_in_path (path_info : str) (levels : Z) : result str :=
  let last_index := Z.of_nat (length path_info) - 1 in
  last_slash ← rindex path_info None;
  last_slash ←
    (if last_slash =? last_index
     then rindex path_info (Some last_index)
     else Ok last_slash);
  let path_info := slice_to path_info (last_slash + 1) in
  if 1 <? levels then walk (Z.to_nat (levels - 1)) path_info
  else Ok path_info.

End PathWalkerMixin.

(** A path as a [str]. *)
Definition path (s : string) : PathWalkerMixin.str := list_ascii_of_string s.

(** The number of slashes of a path, and the number of those before its
    last character. *)
Definition slashes (s : PathWalkerMixin.str) : nat :=
  count_occ ascii_dec s PathWalkerMixin.slash.

Definition depth (s : PathWalkerMixin.str) : nat := slashes (removelast s).

(** The path ends with a slash. *)
Definition ends_with_slash (s : PathWalkerMixin.str) : Prop :=
  exists s', s = s' ++ [PathWalkerMixin.slash].

(** The levels [get_parent_in_path] walks up: one at least. *)
Definition levels_up (levels : Z) : nat := Z.to_nat (Z.max levels 1).

(** The parent of a path: the path up to the last slash before its last
    character, that slash included. *)
Definition parent (s : PathWalkerMixin.str) : result PathWalkerMixin.str :=
  match PathWalkerMixin.rfind PathWalkerMixin.slash (removelast s) with
  | Some k => Ok (firstn k s ++ [PathWalkerMixin.slash])
  | None => Raise ValueError
  end.

(** ** More words on the views *)

(** The results of a list body, with or without facets. *)
Definition results_of {R} (body : ListWithHeadersMixin.ListBody R) : R :=
  match body with
  | ListWithHeadersMixin.Bare results => results
  | ListWithHeadersMixin.WithFacets results _ => results
  end.

(** The request or the view asks for everything at once: the compress
    header has a value that is not empty, or the page size is 0. *)
Definition skips_pagination {A P D S}
    (self : ListWithHeadersMixin.View A P D S) (request : Request) : bool :=
  get_flag (META request) "HTTP_COMPRESS"
  || match ListWithHeadersMixin.get_paginate_by self with
     | Some n => n =? 0
     | None => false
     end.

(** The queryset [get_object] looks for the latest version in: the one
    it is given, or the ordered and filtered queryset of the view. *)
Definition latest_queryset (self : SourceVersionRetrieveUpdateView.View)
    (queryset : option (list SourceVersion)) : list SourceVersion :=
  match queryset with
  | Some queryset => queryset
  | None =>
      List.filter (SourceVersionRetrieveUpdateView.filter_backend self)
        (SourceVersionRetrieveUpdateView.order_by_created_at self
           (SourceVersionRetrieveUpdateView.get_queryset self))
  end.


(** An [int] that reads a minus sign before the digits, and detail views
    to run with it: any limit, any outcome for the latest version. *)
Definition int_signed (s : string) : result Z :=
  match s with
  | String "-"%char rest =>
      match int_decimal rest with
      | Ok n => Ok (- n)
      | Raise e => Raise e
      end
  | _ => int_decimal s
  end.

Definition detail_view (max_paginate_by paginate_by : option Z)
    (latest : result SourceVersion)
    : SourceRetrieveUpdateDestroyView.View string (list Z) (list Z) :=
  SourceRetrieveUpdateDestroyView.mkView
    (Ok (mkSource 1 "ICD-10")) source_mnemonic int_signed
    max_paginate_by paginate_by paginate_by
    (fun _ => latest) (fun _ => None)
    example_concepts example_mappings
    (map concept_id) (map mapping_id).

(** ** SourceVersionListView.get_queryset *)

Module SourceVersionListView.

(** What [get_queryset] reads: the queryset of the parent class, the
    [_ocl_processing] column of the versions, the two filters of the
    view ([None] when a filter is not set) and [order_by('-created_at')]. *)
Record View : Type := mkView {
  super_get_queryset : list SourceVersion;
  ocl_processing : SourceVersion -> bool;
  processing_filter : option bool;
  released_filter : option bool;
  order_by_created_at : list SourceVersion -> list SourceVersion
}.

Definition get_queryset (self : View) : list SourceVersion :=
  let queryset := super_get_queryset self in
  let queryset :=
    match processing_filter self with
    | Some processing =>
        List.filter (fun v => Bool.eqb (ocl_processing self v) processing)
          queryset
    | None => queryset
    end in
  let queryset :=
    match released_filter self with
    | Some rel => List.filter (fun v => Bool.eqb (released v) rel) queryset
    | None => queryset
    end in
  order_by_created_at self queryset.

End SourceVersionListView.

(** A version passes the filters of the version list. *)
Definition passes_filters (self : SourceVersionListView.View)
    (v : SourceVersion) : Prop :=
  (forall processing,
     SourceVersionListView.processing_filter self = Some processing ->
     SourceVersionListView.ocl_processing self v = processing)
  /\ (forall rel,
        SourceVersionListView.released_filter self = Some rel ->
        released v = rel).

(** [order_by('-created_at')] on any queryset: the same versions, newest
    first. *)
Definition orders_newest_first
    (order_by : list SourceVersion -> list SourceVersion) : Prop :=
  forall l, Permutation l (order_by l) /\ newest_first (order_by l).

(** A version list view over a queryset, with the two filters. *)
Definition version_list_view (queryset : list SourceVersion)
    (processing rel : option bool) : SourceVersionListView.View :=
  SourceVersionListView.mkView queryset (fun v => negb (released v))
    processing rel sort_newest_first.

(** * Proofs *)

(** ** The result monad *)

Lemma bind_ok {A B} (m : result A) (f : A -> result B) (b : B) :
  m ≫= f = Ok b -> exists a, m = Ok a /\ f a = Ok b.
Proof. destruct m as [a|e]; simpl; [eauto | discriminate]. Qed.

(** ** prepend_head *)

Section PrependHeadFacts.
Context {A : Type} `{Mnemonic A}.
Local Abbreviation is_head := ListWithHeadersMixin.is_head.
Local Abbreviation non_head := ListWithHeadersMixin.non_head.
Local Abbreviation hasattr_mnemonic := ListWithHeadersMixin.hasattr_mnemonic.
Local Abbreviation attr_mnemonic := ListWithHeadersMixin.attr_mnemonic.
Local Abbreviation prepend_head := ListWithHeadersMixin.prepend_head.

Lemma is_head_spec (el : A) :
  is_head el = true <-> getattr_mnemonic el = Some HEAD.
Proof.
  unfold is_head. destruct (getattr_mnemonic el) as [m|].
  - rewrite String.eqb_eq. split; [intros ->; reflexivity | congruence].
  - split; discriminate.
Qed.

Lemma filter_is_head_nil (l : list A) :
  List.filter is_head l = [] <-> ~ has_head l.
Proof.
  split.
  - intros Hnil (el & Hin & Hm).
    assert (Hf : In el (List.filter is_head l)).
    { apply filter_In. split; [exact Hin | now apply is_head_spec]. }
    rewrite Hnil in Hf. exact Hf.
  - intros Hno. destruct (List.filter is_head l) as [|el tl] eqn:E; [reflexivity|].
    exfalso. apply Hno. exists el.
    assert (Hf : In el (List.filter is_head l)) by (rewrite E; now left).
    apply filter_In in Hf as [Hin Hh]. split; [exact Hin | now apply is_head_spec].
Qed.

(** The second comprehension returns exactly when every element has a
    mnemonic, and then it is the filter. *)
Lemma non_head_ok (l rest : list A) :
  non_head l = Ok rest ->
  rest = List.filter (fun el => negb (is_head el)) l.
Proof.
  revert rest. induction l as [|el tl IH]; simpl; intros rest Hr.
  - congruence.
  - unfold attr_mnemonic, is_head in *.
    destruct (getattr_mnemonic el) as [m|]; simpl in Hr; [|discriminate].
    destruct (non_head tl) as [r|e]; simpl in Hr; [|discriminate].
    specialize (IH r eq_refl). subst r.
    destruct (String.eqb m HEAD); simpl; congruence.
Qed.

Lemma non_head_total (l : list A) :
  Forall (fun el => hasattr_mnemonic el = true) l ->
  non_head l = Ok (List.filter (fun el => negb (is_head el)) l).
Proof.
  induction 1 as [|el tl Hel _ IH]; simpl; [reflexivity|].
  unfold hasattr_mnemonic, attr_mnemonic, is_head in *.
  destruct (getattr_mnemonic el) as [m|]; [|discriminate]. simpl.
  rewrite IH. simpl. destruct (String.eqb m HEAD); reflexivity.
Qed.

Lemma heads_first_perm (l : list A) : Permutation l (heads_first l).
Proof.
  unfold heads_first. induction l as [|el tl IH]; simpl; [constructor|].
  destruct (is_head el); simpl.
  - now constructor.
  - etransitivity; [apply perm_skip, IH | apply Permutation_middle].
Qed.

Lemma prepend_head_total (l : list A) :
  Forall (fun el => hasattr_mnemonic el = true) l ->
  is_ok (prepend_head l) = true.
Proof.
  intros Hall. destruct l as [|o0 tl]; [reflexivity|].
  unfold prepend_head. destruct (hasattr_mnemonic o0); [|reflexivity].
  destruct (List.filter is_head (o0 :: tl)); [reflexivity|].
  rewrite (non_head_total _ Hall). reflexivity.
Qed.

(** C4, as amended: on a list whose elements all have a mnemonic and one
    of which is HEAD, [prepend_head] returns the HEAD elements in their
    order followed by the others in theirs; on a list with no HEAD
    element it returns the list unchanged; and whatever it returns is a
    permutation of its input. *)
Theorem prepend_head_stable_permutation (l : list A) :
  (Forall (fun el => hasattr_mnemonic el = true) l -> has_head l ->
   prepend_head l = Ok (heads_first l))
  /\ (~ has_head l -> prepend_head l = Ok l)
  /\ (forall l', prepend_head l = Ok l' -> Permutation l l').
Proof.
  split; [|split].
  - intros Hall Hhead. destruct l as [|o0 tl].
    + destruct Hhead as (el & [] & _).
    + unfold prepend_head.
      assert (H0 : hasattr_mnemonic o0 = true) by now inversion Hall.
      rewrite H0.
      destruct (List.filter is_head (o0 :: tl)) as [|h hs] eqn:E.
      * apply filter_is_head_nil in E. contradiction.
      * rewrite (non_head_total _ Hall). simpl.
        unfold heads_first. rewrite E. reflexivity.
  - intros Hno. destruct l as [|o0 tl]; [reflexivity|].
    unfold prepend_head. apply filter_is_head_nil in Hno. rewrite Hno.
    destruct (hasattr_mnemonic o0); reflexivity.
  - intros l' Hl'. destruct l as [|o0 tl].
    + injection Hl' as <-. constructor.
    + unfold prepend_head in Hl'.
      destruct (hasattr_mnemonic o0).
      * destruct (List.filter is_head (o0 :: tl)) as [|h hs] eqn:E.
        -- injection Hl' as <-. reflexivity.
        -- rewrite <- E in Hl'.
           apply bind_ok in Hl' as (rest & Hrest & Hl').
           apply non_head_ok in Hrest. injection Hl' as <-.
           rewrite Hrest. apply heads_first_perm.
      * injection Hl' as <-. reflexivity.
Qed.

End PrependHeadFacts.

(** Three versions of a source, HEAD in the middle, and a list that
    starts with an object without mnemonic. *)
Example prepend_head_moves_head :
  ListWithHeadersMixin.prepend_head
    [mkObj 1 (Some "v1"); mkObj 2 (Some "HEAD"); mkObj 3 (Some "v2")]
  = Ok [mkObj 2 (Some "HEAD"); mkObj 1 (Some "v1"); mkObj 3 (Some "v2")].
Proof. reflexivity. Qed.

Example prepend_head_raises :
  ListWithHeadersMixin.prepend_head [mkObj 2 (Some "HEAD"); mkObj 1 None]
  = Raise AttributeError.
Proof. reflexivity. Qed.

Lemma prepend_head_stable_permutation_witness :
  ListWithHeadersMixin.prepend_head
    [mkObj 1 (Some "v1"); mkObj 2 (Some "HEAD"); mkObj 3 (Some "v2")]
  = Ok [mkObj 2 (Some "HEAD"); mkObj 1 (Some "v1"); mkObj 3 (Some "v2")]
  /\ ListWithHeadersMixin.prepend_head [mkObj 1 (Some "v1"); mkObj 4 None]
     = Ok [mkObj 1 (Some "v1"); mkObj 4 None]
  /\ Permutation
       [mkObj 1 (Some "v1"); mkObj 2 (Some "HEAD")]
       [mkObj 2 (Some "HEAD"); mkObj 1 (Some "v1")].
Proof.
  split; [|split].
  - destruct (prepend_head_stable_permutation
                [mkObj 1 (Some "v1"); mkObj 2 (Some "HEAD"); mkObj 3 (Some "v2")])
      as (Hheads & _ & _).
    apply Hheads.
    + repeat constructor.
    + exists (mkObj 2 (Some "HEAD")). split; [simpl; tauto | reflexivity].
  - destruct (prepend_head_stable_permutation
                [mkObj 1 (Some "v1"); mkObj 4 None]) as (_ & Hsame & _).
    apply Hsame.
    intros (el & Hin & Hm). simpl in Hin.
    destruct Hin as [<- | [<- | []]]; discriminate Hm.
  - destruct (prepend_head_stable_permutation
                [mkObj 1 (Some "v1"); mkObj 2 (Some "HEAD")]) as (_ & _ & Hperm).
    apply Hperm. reflexivity.
Defined.

(** C4, as stated, fails on a list whose first element has no mnemonic:
    the list has a HEAD element and comes back unchanged, HEAD last. *)
Lemma prepend_head_first_without_mnemonic :
  has_head [mkObj 1 None; mkObj 2 (Some "HEAD")]
  /\ ListWithHeadersMixin.prepend_head [mkObj 1 None; mkObj 2 (Some "HEAD")]
     = Ok [mkObj 1 None; mkObj 2 (Some "HEAD")]
  /\ ListWithHeadersMixin.prepend_head [mkObj 1 None; mkObj 2 (Some "HEAD")]
     <> Ok (heads_first [mkObj 1 None; mkObj 2 (Some "HEAD")]).
Proof.
  split; [|split].
  - exists (mkObj 2 (Some "HEAD")). split; [simpl; tauto | reflexivity].
  - reflexivity.
  - discriminate.
Qed.

(** ** ListWithHeadersMixin.list *)

Example list_with_facets :
  data <$> (match ListWithHeadersMixin.list example_list_view
              (request_with_meta {[ INCLUDE_FACETS := "true" ]}) with
            | Ok r => Some r | Raise _ => None end)
  = Some (ListWithHeadersMixin.WithFacets
            (ListWithHeadersMixin.Paginated (2, [2; 1])) example_facets).
Proof. vm_compute. reflexivity. Qed.

Example list_compressed_with_facets :
  data <$> (match ListWithHeadersMixin.list example_list_view
              (request_with_meta
                 {[ INCLUDE_FACETS := "true"; "HTTP_COMPRESS" := "true" ]}) with
            | Ok r => Some r | Raise _ => None end)
  = Some (ListWithHeadersMixin.WithFacets
            (ListWithHeadersMixin.Flat [2; 1; 3]) example_facets).
Proof. vm_compute. reflexivity. Qed.

Lemma get_flag_true (d : gmap string string) (k : string) :
  get_flag d k = true <-> exists v, d !! k = Some v /\ v <> "".
Proof.
  unfold get_flag. destruct (d !! k) as [v|].
  - destruct v as [|c v]; simpl.
    + split; [discriminate | intros (v' & Hv & Hne); congruence].
    + split; [intros _; eexists; split; [reflexivity | discriminate] | reflexivity].
  - split; [discriminate | intros (v & Hv & _); discriminate].
Qed.

Section ListFacts.
Context {A P D S : Type} `{Mnemonic A}.
Local Abbreviation View := (ListWithHeadersMixin.View A P D S).
Local Abbreviation respond := (@ListWithHeadersMixin.respond D S).
Local Abbreviation Results := (ListWithHeadersMixin.Results D S).

Lemma respond_has_facets facets (results : Results) h :
  has_facets (data (respond facets results h)) = true
  <-> exists f, facets = Some f /\ f <> ∅.
Proof.
  unfold ListWithHeadersMixin.respond, ListWithHeadersMixin.truthy_facets.
  destruct facets as [f|]; simpl.
  - case_bool_decide; simpl.
    + split; [eauto | reflexivity].
    + split; [discriminate | intros (f' & [= <-] & Hne); contradiction].
  - split; [discriminate | intros (f & Hf & _); discriminate].
Qed.

Lemma respond_facets_value facets (results results' : Results) h f :
  data (respond facets results h) = ListWithHeadersMixin.WithFacets results' f ->
  facets = Some f /\ results' = results.
Proof.
  unfold ListWithHeadersMixin.respond.
  destruct facets as [f'|]; simpl; [|discriminate].
  destruct (ListWithHeadersMixin.truthy_facets f'); simpl; [|discriminate].
  intros [= -> ->]. split; reflexivity.
Qed.

(** Every response of [list] is built by [respond] from the kept facets,
    with paginated or flat results. *)
Lemma list_respond (self : View) (request : Request) resp :
  ListWithHeadersMixin.list self request = Ok resp ->
  exists results h, resp = respond (kept_facets self request) results h.
Proof.
  unfold ListWithHeadersMixin.list, kept_facets, collection.
  set (ol := match ListWithHeadersMixin.object_list self with
             | Some ol => ol
             | None => ListWithHeadersMixin.filtered_queryset self
             end).
  set (facets := if get_flag (META request) INCLUDE_FACETS
                 then ListWithHeadersMixin.facets_attr ol else None).
  assert (Hstd : forall r,
    (objects ← ListWithHeadersMixin.prepend_head (ListWithHeadersMixin.items ol);
     Ok (respond facets
           (ListWithHeadersMixin.Flat
              (ListWithHeadersMixin.get_serializer self objects)) ∅)) = Ok r ->
    exists results h, r = respond facets results h).
  { intros r Hr. apply bind_ok in Hr as (objects & _ & [= <-]). eauto. }
  destruct (negb _).
  - intros Hr. apply bind_ok in Hr as (objects & _ & Hr).
    apply bind_ok in Hr as (page & _ & Hr).
    destruct page as [page|]; [injection Hr as <-; eauto | now apply Hstd].
  - apply Hstd.
Qed.

(** Without a raise of [prepend_head] or of the paginator, [list]
    returns. *)
Lemma list_returns (self : View) (request : Request) :
  Forall (fun el => ListWithHeadersMixin.hasattr_mnemonic el = true)
    (ListWithHeadersMixin.items (collection self)) ->
  (forall objects, is_ok (ListWithHeadersMixin.paginate_queryset self objects) = true) ->
  exists resp, ListWithHeadersMixin.list self request = Ok resp.
Proof.
  intros Hall Hpage.
  assert (Hph : exists objects,
    ListWithHeadersMixin.prepend_head
      (ListWithHeadersMixin.items (collection self)) = Ok objects).
  { pose proof (prepend_head_total _ Hall) as Hok.
    destruct (ListWithHeadersMixin.prepend_head _); [eauto | discriminate]. }
  destruct Hph as (objects & Hobjects).
  unfold ListWithHeadersMixin.list. fold (collection self).
  rewrite Hobjects. simpl.
  destruct (negb _); [|eauto].
  specialize (Hpage objects).
  destruct (ListWithHeadersMixin.paginate_queryset self objects) as [[page|]|e];
    simpl; [eauto | eauto | discriminate].
Qed.

(** C5, as amended: [list] returns when neither [prepend_head] nor the
    paginator raises, and the body of every response of [list] has the
    facets shape if and only if the include-facets header is there with
    a value that is not empty and the collection has a [facets]
    attribute that is not empty; the facets attached are those of the
    collection. The results are paginated or flat: the statement is the
    same for both shapes. *)
Theorem list_facets_iff (self : View) (request : Request) :
  (Forall (fun el => ListWithHeadersMixin.hasattr_mnemonic el = true)
     (ListWithHeadersMixin.items (collection self)) ->
   (forall objects,
      is_ok (ListWithHeadersMixin.paginate_queryset self objects) = true) ->
   exists resp, ListWithHeadersMixin.list self request = Ok resp)
  /\ (forall resp,
       ListWithHeadersMixin.list self request = Ok resp ->
       (has_facets (data resp) = true
        <-> signals_include_facets request /\ exposes_facet_data (collection self))
       /\ (forall (results : Results) f,
             data resp = ListWithHeadersMixin.WithFacets results f ->
             ListWithHeadersMixin.facets_attr (collection self) = Some f)).
Proof.
  split; [apply list_returns|].
  intros resp Hresp. apply list_respond in Hresp as (results & h & ->).
  split.
  - rewrite respond_has_facets. unfold kept_facets, signals_include_facets,
      exposes_facet_data.
    destruct (get_flag (META request) INCLUDE_FACETS) eqn:Hflag.
    + apply get_flag_true in Hflag. tauto.
    + split; [intros (f & Hf & _); discriminate|].
      intros [Hsig _]. apply get_flag_true in Hsig. congruence.
  - intros results' f Hbody. apply respond_facets_value in Hbody as [Hf _].
    unfold kept_facets in Hf.
    destruct (get_flag (META request) INCLUDE_FACETS); [exact Hf | discriminate].
Qed.

End ListFacts.

Lemma list_facets_iff_witness :
  (exists resp,
     ListWithHeadersMixin.list example_list_view
       (request_with_meta {[ INCLUDE_FACETS := "true" ]}) = Ok resp)
  /\ signals_include_facets (request_with_meta {[ INCLUDE_FACETS := "true" ]})
  /\ exposes_facet_data (collection example_list_view).
Proof.
  destruct (list_facets_iff example_list_view
              (request_with_meta {[ INCLUDE_FACETS := "true" ]}))
    as [Hreturns Hshape].
  assert (Hex : exists resp,
    ListWithHeadersMixin.list example_list_view
      (request_with_meta {[ INCLUDE_FACETS := "true" ]}) = Ok resp).
  { apply Hreturns; [repeat constructor | reflexivity]. }
  split; [exact Hex|].
  destruct Hex as (resp & Hresp).
  destruct (Hshape resp Hresp) as [Hiff _].
  apply Hiff.
  vm_compute in Hresp. injection Hresp as <-. reflexivity.
Defined.

(** C5, as stated, fails on a request that carries the include-facets
    header with an empty value: the collection exposes facet data and
    the body is the bare results. *)
Lemma list_empty_include_facets_header :
  carries_include_facets (request_with_meta {[ INCLUDE_FACETS := "" ]})
  /\ exposes_facet_data (collection example_list_view)
  /\ exists resp,
       ListWithHeadersMixin.list example_list_view
         (request_with_meta {[ INCLUDE_FACETS := "" ]}) = Ok resp
       /\ has_facets (data resp) = false.
Proof.
  split; [|split].
  - exists "". reflexivity.
  - exists example_facets. split; [reflexivity|].
    intros Hempty.
    assert (Hl : example_facets !! "locale" = None) by (rewrite Hempty; reflexivity).
    vm_compute in Hl. discriminate Hl.
  - eexists. split; [vm_compute; reflexivity | reflexivity].
Qed.

(** ** SourceVersionRetrieveUpdateView.get_object *)

Example latest_of_three :
  SourceVersionRetrieveUpdateView.get_object
    (latest_view [version_head; version_1; version_2]) None = Ok version_1.
Proof. reflexivity. Qed.

Example latest_without_release :
  SourceVersionRetrieveUpdateView.get_object (latest_view [version_head]) None
  = Raise Http404.
Proof. reflexivity. Qed.

Lemma newest_first_strongly (l : list SourceVersion) :
  newest_first l ->
  StronglySorted (fun a b => created_at b <= created_at a) l.
Proof.
  apply Sorted_StronglySorted. intros a b c Hab Hbc. lia.
Qed.

Lemma StronglySorted_filter {X} (R : X -> X -> Prop) (f : X -> bool) l :
  StronglySorted R l -> StronglySorted R (List.filter f l).
Proof.
  induction 1 as [|a l Hl IH Ha]; simpl; [constructor|].
  destruct (f a); [|exact IH].
  constructor; [exact IH|].
  rewrite List.Forall_forall in *. intros x Hx.
  apply filter_In in Hx as [Hx _]. now apply Ha.
Qed.

Section LatestVersion.
Variable self : SourceVersionRetrieveUpdateView.View.
Hypothesis Hlatest : SourceVersionRetrieveUpdateView.is_latest self = true.
Hypothesis Horder : orders_queryset self.

Local Abbreviation candidates :=
  (List.filter released
     (List.filter (SourceVersionRetrieveUpdateView.filter_backend self)
        (SourceVersionRetrieveUpdateView.order_by_created_at self
           (SourceVersionRetrieveUpdateView.get_queryset self)))).

Lemma candidates_pool (v : SourceVersion) :
  In v candidates <-> In v (released_pool self).
Proof.
  destruct Horder as [Hperm _]. unfold released_pool.
  rewrite !filter_In. split; intros [[Hin Hb] Hr]; repeat split; trivial.
  - eapply Permutation_in; [symmetry; exact Hperm | exact Hin].
  - eapply Permutation_in; [exact Hperm | exact Hin].
Qed.

Lemma candidates_sorted :
  StronglySorted (fun a b => created_at b <= created_at a) candidates.
Proof.
  destruct Horder as [_ Hsorted].
  now apply StronglySorted_filter, StronglySorted_filter, newest_first_strongly.
Qed.

Lemma get_object_latest :
  SourceVersionRetrieveUpdateView.get_object self None =
  match candidates with
  | [] => Raise Http404
  | obj :: _ =>
      SourceVersionRetrieveUpdateView.check_object_permissions self obj
      ≫= fun _ => Ok obj
  end.
Proof.
  unfold SourceVersionRetrieveUpdateView.get_object,
    SourceVersionRetrieveUpdateView.get_list_or_404.
  rewrite Hlatest. destruct candidates; reflexivity.
Qed.

(** C7, as amended: with [is_latest], [get_object] fails with a 404 when
    the queryset has no released version, HEAD or not; otherwise it
    checks the permissions on a released version that no other released
    version was created after, and returns it. The order among released
    versions created at the same time is the one of the store: the code
    adds no second key. *)
Theorem get_object_latest_released :
  (released_pool self = [] ->
   SourceVersionRetrieveUpdateView.get_object self None = Raise Http404)
  /\ (released_pool self <> [] ->
      exists v,
        In v (released_pool self)
        /\ released v = true
        /\ (forall u, In u (released_pool self) -> created_at u <= created_at v)
        /\ SourceVersionRetrieveUpdateView.get_object self None =
           (SourceVersionRetrieveUpdateView.check_object_permissions self v
            ≫= fun _ => Ok v)).
Proof.
  rewrite get_object_latest.
  pose proof candidates_pool as Hpool.
  pose proof candidates_sorted as Hsorted.
  destruct candidates as [|obj rest]; split.
  - reflexivity.
  - intros Hne. destruct (released_pool self) as [|u tl]; [contradiction|].
    destruct (proj2 (Hpool u) (or_introl eq_refl)).
  - intros Hnil. exfalso.
    assert (Hobj : In obj (released_pool self)) by (apply Hpool; now left).
    rewrite Hnil in Hobj. exact Hobj.
  - intros _. exists obj.
    assert (Hobj : In obj (released_pool self)) by (apply Hpool; now left).
    repeat split; trivial.
    + unfold released_pool in Hobj. now apply filter_In in Hobj as [_ Hr].
    + intros u Hu. apply Hpool in Hu as [<- | Hu]; [lia|].
      apply StronglySorted_inv in Hsorted as [_ Hall].
      rewrite List.Forall_forall in Hall. now apply Hall.
Qed.

End LatestVersion.

Lemma latest_view_orders_three :
  orders_queryset (latest_view [version_head; version_1; version_2]).
Proof.
  split.
  - exact (Permutation_cons_append [version_1; version_2] version_head).
  - repeat constructor; simpl; lia.
Qed.

Lemma latest_view_orders_head :
  orders_queryset (latest_view [version_head]).
Proof. split; [reflexivity | repeat constructor]. Qed.

Lemma latest_view_orders_tie :
  orders_queryset (latest_view [version_1; version_2]).
Proof. split; [reflexivity | repeat constructor; simpl; lia]. Qed.

Lemma get_object_latest_released_witness :
  SourceVersionRetrieveUpdateView.get_object (latest_view [version_head]) None
  = Raise Http404
  /\ exists v,
       In v (released_pool (latest_view [version_head; version_1; version_2]))
       /\ released v = true
       /\ (forall u,
             In u (released_pool
                     (latest_view [version_head; version_1; version_2])) ->
             created_at u <= created_at v)
       /\ SourceVersionRetrieveUpdateView.get_object
            (latest_view [version_head; version_1; version_2]) None
          = (SourceVersionRetrieveUpdateView.check_object_permissions
               (latest_view [version_head; version_1; version_2]) v
             ≫= fun _ => Ok v).
Proof.
  split.
  - apply (get_object_latest_released (latest_view [version_head]) eq_refl
             latest_view_orders_head).
    reflexivity.
  - apply (get_object_latest_released
             (latest_view [version_head; version_1; version_2]) eq_refl
             latest_view_orders_three).
    discriminate.
Defined.

(** C7, as stated, fails on two released versions created at the same
    time: the ordering of the store is newest first and keeps the older
    insert in front, and [get_object] returns it, not the version
    inserted last. *)
Lemma latest_tie_not_highest_insertion :
  orders_queryset (latest_view [version_1; version_2])
  /\ SourceVersionRetrieveUpdateView.get_object
       (latest_view [version_1; version_2]) None = Ok version_1
  /\ In version_2 (released_pool (latest_view [version_1; version_2]))
  /\ created_at version_2 = created_at version_1
  /\ id version_1 < id version_2.
Proof.
  split; [exact latest_view_orders_tie|].
  split; [reflexivity|].
  split; [simpl; tauto|].
  split; [reflexivity | reflexivity].
Qed.

(** ** SourceVersionExportView *)

Example get_dispatches :
  SourceVersionExportView.get (export_view version_1) (request_of false)
    world_empty
  = (Ok (export_response (export_view version_1) version_1 None 200),
     mkWorld ∅ ∅ [GetKey "export/v1"] {[ 2 ]} [2]).
Proof. vm_compute. reflexivity. Qed.

Lemma delete_forbidden self request w :
  user_is_staff request = false ->
  SourceVersionExportView.delete self request w
  = (Ok SourceVersionExportView.HttpResponseForbidden, w).
Proof.
  intros Hs. unfold SourceVersionExportView.delete. rewrite Hs. reflexivity.
Qed.

Section ExportFacts.
Variable self : SourceVersionExportView.View.
Variable request : Request.
Variable version : SourceVersion.
Variable w : World.
Hypothesis Hobj : SourceVersionExportView.get_object self = Ok version.

Local Abbreviation path := (SourceVersionExportView.export_path self version).

Ltac run_view :=
  unfold SourceVersionExportView.get, SourceVersionExportView.post,
    SourceVersionExportView.delete, SourceVersionExportView.has_export,
    SourceVersionExportView.handle_export_source_version,
    SourceVersionExportView.export_source_delay,
    SourceVersionExportView.get_export_key,
    SourceVersionExportView.key_delete, bind, lift, ret;
  rewrite ?Hobj; simpl.

Lemma get_head :
  mnemonic version = "HEAD" ->
  SourceVersionExportView.get self request w
  = (Ok (HttpResponse 405), log_store (GetKey path) w).
Proof. intros Hm. run_view. rewrite Hm. reflexivity. Qed.

Lemma post_head :
  mnemonic version = "HEAD" ->
  SourceVersionExportView.post self request w = (Ok (HttpResponse 405), w).
Proof. intros Hm. run_view. rewrite Hm. reflexivity. Qed.

Lemma get_exported :
  mnemonic version <> "HEAD" -> path ∈ bucket w ->
  SourceVersionExportView.get self request w
  = (Ok (export_response self version
           (Some (SourceVersionExportView.generate_url self path 60)) 200),
     log_store (GetKey path) w).
Proof.
  intros Hm Hin. apply String.eqb_neq in Hm. run_view. rewrite Hm.
  rewrite decide_True by exact Hin. reflexivity.
Qed.

Lemma get_dispatched :
  mnemonic version <> "HEAD" -> path ∉ bucket w -> id version ∉ in_flight w ->
  SourceVersionExportView.get self request w
  = (Ok (export_response self version None 200),
     enqueue (id version) (log_store (GetKey path) w)).
Proof.
  intros Hm Hout Hfree. apply String.eqb_neq in Hm. run_view. rewrite Hm.
  rewrite decide_False by exact Hout. simpl.
  rewrite decide_False by exact Hfree. reflexivity.
Qed.

Lemma get_queued :
  mnemonic version <> "HEAD" -> path ∉ bucket w -> id version ∈ in_flight w ->
  SourceVersionExportView.get self request w
  = (Ok (export_response self version None 204), log_store (GetKey path) w).
Proof.
  intros Hm Hout Hbusy. apply String.eqb_neq in Hm. run_view. rewrite Hm.
  rewrite decide_False by exact Hout. simpl.
  rewrite decide_True by exact Hbusy. reflexivity.
Qed.

Lemma post_exported :
  mnemonic version <> "HEAD" -> path ∈ bucket w ->
  SourceVersionExportView.post self request w
  = (Ok (HttpResponse 204), log_store (GetKey path) w).
Proof.
  intros Hm Hin. apply String.eqb_neq in Hm. run_view. rewrite Hm.
  rewrite decide_True by exact Hin. reflexivity.
Qed.

Lemma post_dispatched :
  mnemonic version <> "HEAD" -> path ∉ bucket w -> id version ∉ in_flight w ->
  SourceVersionExportView.post self request w
  = (Ok (HttpResponse 200), enqueue (id version) (log_store (GetKey path) w)).
Proof.
  intros Hm Hout Hfree. apply String.eqb_neq in Hm. run_view. rewrite Hm.
  rewrite decide_False by exact Hout. simpl.
  rewrite decide_False by exact Hfree. reflexivity.
Qed.

Lemma post_queued :
  mnemonic version <> "HEAD" -> path ∉ bucket w -> id version ∈ in_flight w ->
  SourceVersionExportView.post self request w
  = (Ok (HttpResponse 204), log_store (GetKey path) w).
Proof.
  intros Hm Hout Hbusy. apply String.eqb_neq in Hm. run_view. rewrite Hm.
  rewrite decide_False by exact Hout. simpl.
  rewrite decide_True by exact Hbusy. reflexivity.
Qed.

Lemma delete_staff :
  user_is_staff request = true ->
  SourceVersionExportView.delete self request w
  = (Ok (HttpResponse 204),
     if decide (path ∈ bucket w) then
       log_store (DeleteKey path)
         (set_bucket (fun b => b ∖ {[path]})
            (log_store (GetKey path) (log_store (GetKey path) w)))
     else log_store (GetKey path) w).
Proof.
  intros Hs. run_view. rewrite Hs. simpl.
  destruct (decide (path ∈ bucket w)) as [Hin|Hout]; simpl.
  - rewrite decide_True by exact Hin. reflexivity.
  - reflexivity.
Qed.

End ExportFacts.

Lemma export_response_headers self version url st :
  carries_export_headers self version (export_response self version url st).
Proof.
  unfold carries_export_headers, export_response, set_header. simpl.
  repeat split; by simplify_map_eq.
Qed.

Lemma export_response_status self version url st :
  status (export_response self version url st) = st.
Proof. reflexivity. Qed.

(** C1, as amended: on a version that is not HEAD and has no artifact,
    GET and POST answer 200 when the job is newly dispatched, and the
    job is enqueued once; they answer 204 when a job for the version is
    already queued, and nothing is enqueued. POST on a version whose
    artifact exists answers 204 and dispatches nothing. *)
Theorem export_dispatch_status self request version w :
  SourceVersionExportView.get_object self = Ok version ->
  mnemonic version <> "HEAD" ->
  (SourceVersionExportView.export_path self version ∉ bucket w ->
   id version ∉ in_flight w ->
   exists r r' w' w'',
     SourceVersionExportView.get self request w = (Ok r, w')
     /\ SourceVersionExportView.post self request w = (Ok r', w'')
     /\ status r = 200 /\ status r' = 200
     /\ enqueued w' = id version :: enqueued w
     /\ enqueued w'' = id version :: enqueued w)
  /\ (SourceVersionExportView.export_path self version ∉ bucket w ->
      id version ∈ in_flight w ->
      exists r r' w' w'',
        SourceVersionExportView.get self request w = (Ok r, w')
        /\ SourceVersionExportView.post self request w = (Ok r', w'')
        /\ status r = 204 /\ status r' = 204
        /\ enqueued w' = enqueued w /\ enqueued w'' = enqueued w)
  /\ (SourceVersionExportView.export_path self version ∈ bucket w ->
      exists r' w'',
        SourceVersionExportView.post self request w = (Ok r', w'')
        /\ status r' = 204 /\ enqueued w'' = enqueued w).
Proof.
  intros Hobj Hm. split; [|split].
  - intros Hout Hfree.
    rewrite (get_dispatched self request version w Hobj Hm Hout Hfree).
    rewrite (post_dispatched self request version w Hobj Hm Hout Hfree).
    do 4 eexists. repeat split.
  - intros Hout Hbusy.
    rewrite (get_queued self request version w Hobj Hm Hout Hbusy).
    rewrite (post_queued self request version w Hobj Hm Hout Hbusy).
    do 4 eexists. repeat split.
  - intros Hin.
    rewrite (post_exported self request version w Hobj Hm Hin).
    do 2 eexists. repeat split.
Qed.

(** C2, as amended: for every GET on a version that is not HEAD, whether
    the artifact exists, the job is dispatched or it is already queued,
    the response carries the no-cache directives and the
    lastUpdated/lastUpdatedTimezone pair of the version. *)
Theorem get_carries_export_headers self request version w :
  SourceVersionExportView.get_object self = Ok version ->
  mnemonic version <> "HEAD" ->
  exists r w',
    SourceVersionExportView.get self request w = (Ok r, w')
    /\ carries_export_headers self version r.
Proof.
  intros Hobj Hm.
  destruct (decide (SourceVersionExportView.export_path self version ∈ bucket w))
    as [Hin|Hout].
  - rewrite (get_exported self request version w Hobj Hm Hin).
    do 2 eexists. split; [reflexivity | apply export_response_headers].
  - destruct (decide (id version ∈ in_flight w)) as [Hbusy|Hfree].
    + rewrite (get_queued self request version w Hobj Hm Hout Hbusy).
      do 2 eexists. split; [reflexivity | apply export_response_headers].
    + rewrite (get_dispatched self request version w Hobj Hm Hout Hfree).
      do 2 eexists. split; [reflexivity | apply export_response_headers].
Qed.

(** C6: GET and POST on a version whose mnemonic is HEAD answer 405,
    whatever the bucket holds, and no job is dispatched. *)
Theorem export_head_not_allowed self request version w :
  SourceVersionExportView.get_object self = Ok version ->
  mnemonic version = "HEAD" ->
  exists r r' w' w'',
    SourceVersionExportView.get self request w = (Ok r, w')
    /\ SourceVersionExportView.post self request w = (Ok r', w'')
    /\ status r = 405 /\ status r' = 405
    /\ enqueued w' = enqueued w /\ in_flight w' = in_flight w
    /\ enqueued w'' = enqueued w /\ in_flight w'' = in_flight w.
Proof.
  intros Hobj Hm.
  rewrite (get_head self request version w Hobj Hm).
  rewrite (post_head self request version w Hobj Hm).
  do 4 eexists. repeat split.
Qed.

(** C9: DELETE answers Forbidden to a caller who is not staff, and the
    world, the log of the object store included, is as it was; to a
    staff caller it answers 204 on a HEAD version too, where GET and
    POST answer 405. *)
Theorem delete_has_no_head_check self request version w :
  (user_is_staff request = false ->
   SourceVersionExportView.delete self request w
   = (Ok SourceVersionExportView.HttpResponseForbidden, w))
  /\ (user_is_staff request = true ->
      SourceVersionExportView.get_object self = Ok version ->
      mnemonic version = "HEAD" ->
      exists r w',
        SourceVersionExportView.delete self request w = (Ok r, w')
        /\ status r = 204
        /\ fst (SourceVersionExportView.get self request w)
           = Ok (HttpResponse 405)
        /\ fst (SourceVersionExportView.post self request w)
           = Ok (HttpResponse 405)).
Proof.
  split.
  - apply delete_forbidden.
  - intros Hs Hobj Hm.
    rewrite (delete_staff self request version w Hobj Hs).
    rewrite (get_head self request version w Hobj Hm).
    rewrite (post_head self request version w Hobj Hm).
    do 2 eexists. repeat split.
Qed.

(** ** SourceVersionRetrieveUpdateDestroyView.destroy *)

Lemma destroy_released view version w :
  SourceVersionRetrieveUpdateView.get_object view None = Ok version ->
  released version = true ->
  SourceVersionRetrieveUpdateDestroyView.destroy view w
  = (Ok (mkResponse 400 ∅
           (Some {[ "non_field_errors" :=
                      [SourceVersionRetrieveUpdateDestroyView.released_message] ]})),
     w).
Proof.
  intros Hobj Hr.
  unfold SourceVersionRetrieveUpdateDestroyView.destroy, bind, lift, ret.
  rewrite Hobj, Hr. reflexivity.
Qed.

Lemma destroy_unreleased view version w :
  SourceVersionRetrieveUpdateView.get_object view None = Ok version ->
  released version = false ->
  SourceVersionRetrieveUpdateDestroyView.destroy view w
  = (Ok (mkResponse 204 ∅ None),
     set_versions
       (insert (id version)
          (SourceVersionRetrieveUpdateDestroyView.deactivate version)) w).
Proof.
  intros Hobj Hr.
  unfold SourceVersionRetrieveUpdateDestroyView.destroy,
    SourceVersionRetrieveUpdateDestroyView.super_destroy, bind, lift, ret.
  rewrite !Hobj, Hr. reflexivity.
Qed.

(** C3, as amended: on a released version the version-destroy operation
    answers 400 with a non-field error and leaves the world as it was.
    The delete of the export has no guard on [released]: on a released
    version it answers 403 to a caller who is not staff, with the world
    as it was, and 204 to a staff caller, and then the bucket holds no
    artifact of the version. *)
Theorem destroy_released_guard view self request version w :
  released version = true ->
  (SourceVersionRetrieveUpdateView.get_object view None = Ok version ->
   exists r,
     SourceVersionRetrieveUpdateDestroyView.destroy view w = (Ok r, w)
     /\ status r = 400
     /\ data r
        = Some {[ "non_field_errors" :=
                    [SourceVersionRetrieveUpdateDestroyView.released_message] ]})
  /\ (SourceVersionExportView.get_object self = Ok version ->
      (user_is_staff request = false ->
       exists r,
         SourceVersionExportView.delete self request w = (Ok r, w)
         /\ status r = 403)
      /\ (user_is_staff request = true ->
          exists r w',
            SourceVersionExportView.delete self request w = (Ok r, w')
            /\ status r = 204
            /\ SourceVersionExportView.export_path self version ∉ bucket w')).
Proof.
  intros Hr. split.
  - intros Hobj. rewrite (destroy_released view version w Hobj Hr).
    eexists. repeat split.
  - intros Hobj. split; intros Hs.
    + rewrite (delete_forbidden self request w Hs). eexists. repeat split.
    + rewrite (delete_staff self request version w Hobj Hs).
      do 2 eexists. split; [reflexivity|]. split; [reflexivity|].
      destruct (decide _) as [Hin|Hout]; simpl; [|exact Hout].
      intros [_ Hne]%elem_of_difference. apply Hne, elem_of_singleton.
      reflexivity.
Qed.

Lemma destroy_released_guard_witness :
  (exists r,
     SourceVersionRetrieveUpdateDestroyView.destroy (version_view version_1)
       (world_of_versions [version_head; version_1] {[ "export/v1" ]})
     = (Ok r, world_of_versions [version_head; version_1] {[ "export/v1" ]})
     /\ status r = 400
     /\ data r
        = Some {[ "non_field_errors" :=
                    [SourceVersionRetrieveUpdateDestroyView.released_message] ]})
  /\ (exists r,
        SourceVersionExportView.delete (export_view version_1) (request_of false)
          (world_of_versions [version_head; version_1] {[ "export/v1" ]})
        = (Ok r, world_of_versions [version_head; version_1] {[ "export/v1" ]})
        /\ status r = 403)
  /\ (exists r w',
        SourceVersionExportView.delete (export_view version_1) (request_of true)
          (world_of_versions [version_head; version_1] {[ "export/v1" ]})
        = (Ok r, w')
        /\ status r = 204
        /\ "export/v1" ∉ bucket w').
Proof.
  split; [|split].
  - apply (destroy_released_guard (version_view version_1)
             (export_view version_1) (request_of false) version_1
             (world_of_versions [version_head; version_1] {[ "export/v1" ]})
             eq_refl).
    reflexivity.
  - apply (destroy_released_guard (version_view version_1)
             (export_view version_1) (request_of false) version_1
             (world_of_versions [version_head; version_1] {[ "export/v1" ]})
             eq_refl); reflexivity.
  - apply (destroy_released_guard (version_view version_1)
             (export_view version_1) (request_of true) version_1
             (world_of_versions [version_head; version_1] {[ "export/v1" ]})
             eq_refl); reflexivity.
Defined.

(** C3, as stated, fails on the delete of the export: on a released
    version with an artifact, a staff caller gets 204, not 400, and the
    artifact is gone from the bucket. *)
Lemma delete_export_of_released_version :
  released version_1 = true
  /\ exists r w',
       SourceVersionExportView.delete (export_view version_1) (request_of true)
         (world_exported "export/v1") = (Ok r, w')
       /\ status r = 204
       /\ status r <> 400
       /\ "export/v1" ∈ bucket (world_exported "export/v1")
       /\ bucket w' = ∅.
Proof.
  split; [reflexivity|].
  do 2 eexists. split; [vm_compute; reflexivity|].
  split; [reflexivity|]. split; [discriminate|].
  split; [vm_compute; reflexivity | reflexivity].
Qed.

(** ** Export: witnesses and failing inputs *)

Lemma export_dispatch_status_witness :
  (exists r r' w' w'',
     SourceVersionExportView.get (export_view version_1) (request_of false)
       world_empty = (Ok r, w')
     /\ SourceVersionExportView.post (export_view version_1) (request_of false)
          world_empty = (Ok r', w'')
     /\ status r = 200 /\ status r' = 200
     /\ enqueued w' = id version_1 :: enqueued world_empty
     /\ enqueued w'' = id version_1 :: enqueued world_empty)
  /\ (exists r r' w' w'',
        SourceVersionExportView.get (export_view version_1) (request_of false)
          (world_queued 2) = (Ok r, w')
        /\ SourceVersionExportView.post (export_view version_1) (request_of false)
             (world_queued 2) = (Ok r', w'')
        /\ status r = 204 /\ status r' = 204
        /\ enqueued w' = enqueued (world_queued 2)
        /\ enqueued w'' = enqueued (world_queued 2))
  /\ (exists r' w'',
        SourceVersionExportView.post (export_view version_1) (request_of false)
          (world_exported "export/v1") = (Ok r', w'')
        /\ status r' = 204
        /\ enqueued w'' = enqueued (world_exported "export/v1")).
Proof.
  split; [|split].
  - destruct (export_dispatch_status (export_view version_1) (request_of false)
                version_1 world_empty eq_refl) as (Hnew & _ & _);
      [discriminate|].
    apply Hnew; vm_compute; discriminate.
  - destruct (export_dispatch_status (export_view version_1) (request_of false)
                version_1 (world_queued 2) eq_refl) as (_ & Hqueued & _);
      [discriminate|].
    apply Hqueued; vm_compute; [discriminate | reflexivity].
  - destruct (export_dispatch_status (export_view version_1) (request_of false)
                version_1 (world_exported "export/v1") eq_refl)
      as (_ & _ & Hexported); [discriminate|].
    apply Hexported. vm_compute. reflexivity.
Defined.

(** C1, as stated, fails: with no artifact and no job in flight the job
    is newly dispatched and GET and POST answer 200, not 204; with a job
    already queued they answer 204, not 200. *)
Lemma export_new_dispatch_is_200 :
  mnemonic version_1 <> "HEAD"
  /\ bucket world_empty = ∅ /\ in_flight world_empty = ∅
  /\ (exists r w',
        SourceVersionExportView.get (export_view version_1) (request_of false)
          world_empty = (Ok r, w')
        /\ enqueued w' = [id version_1] /\ status r = 200 /\ status r <> 204)
  /\ (exists r w',
        SourceVersionExportView.post (export_view version_1) (request_of false)
          world_empty = (Ok r, w')
        /\ enqueued w' = [id version_1] /\ status r = 200 /\ status r <> 204)
  /\ (exists r w',
        SourceVersionExportView.get (export_view version_1) (request_of false)
          (world_queued 2) = (Ok r, w')
        /\ enqueued w' = enqueued (world_queued 2)
        /\ status r = 204 /\ status r <> 200).
Proof.
  split; [discriminate|]. split; [reflexivity|]. split; [reflexivity|].
  split; [|split]; do 2 eexists;
    (split; [vm_compute; reflexivity|]);
    (split; [reflexivity|]); (split; [reflexivity | discriminate]).
Qed.

Lemma get_carries_export_headers_witness :
  exists r w',
    SourceVersionExportView.get (export_view version_1) (request_of false)
      (world_exported "export/v1") = (Ok r, w')
    /\ carries_export_headers (export_view version_1) version_1 r.
Proof.
  apply (get_carries_export_headers (export_view version_1) (request_of false)
           version_1 (world_exported "export/v1") eq_refl).
  discriminate.
Defined.

(** C2, as stated, fails on the HEAD version: the 405 goes out before
    any header is set. *)
Lemma get_head_has_no_headers :
  exists r w',
    SourceVersionExportView.get (export_view version_head) (request_of false)
      world_empty = (Ok r, w')
    /\ status r = 405
    /\ headers r = ∅
    /\ ~ carries_export_headers (export_view version_head) version_head r.
Proof.
  do 2 eexists. split; [vm_compute; reflexivity|].
  split; [reflexivity|]. split; [reflexivity|].
  intros (Hcache & _). vm_compute in Hcache. discriminate Hcache.
Qed.

Lemma export_head_not_allowed_witness :
  exists r r' w' w'',
    SourceVersionExportView.get (export_view version_head) (request_of false)
      (world_exported "export/HEAD") = (Ok r, w')
    /\ SourceVersionExportView.post (export_view version_head)
         (request_of false) (world_exported "export/HEAD") = (Ok r', w'')
    /\ status r = 405 /\ status r' = 405
    /\ enqueued w' = enqueued (world_exported "export/HEAD")
    /\ in_flight w' = in_flight (world_exported "export/HEAD")
    /\ enqueued w'' = enqueued (world_exported "export/HEAD")
    /\ in_flight w'' = in_flight (world_exported "export/HEAD").
Proof.
  apply (export_head_not_allowed (export_view version_head) (request_of false)
           version_head (world_exported "export/HEAD")); reflexivity.
Defined.

Lemma delete_has_no_head_check_witness :
  SourceVersionExportView.delete (export_view version_head) (request_of false)
    (world_exported "export/HEAD")
  = (Ok SourceVersionExportView.HttpResponseForbidden,
     world_exported "export/HEAD")
  /\ exists r w',
       SourceVersionExportView.delete (export_view version_head)
         (request_of true) (world_exported "export/HEAD") = (Ok r, w')
       /\ status r = 204
       /\ fst (SourceVersionExportView.get (export_view version_head)
                 (request_of true) (world_exported "export/HEAD"))
          = Ok (HttpResponse 405)
       /\ fst (SourceVersionExportView.post (export_view version_head)
                 (request_of true) (world_exported "export/HEAD"))
          = Ok (HttpResponse 405).
Proof.
  split.
  - apply (delete_has_no_head_check (export_view version_head)
             (request_of false) version_head (world_exported "export/HEAD")).
    reflexivity.
  - apply (delete_has_no_head_check (export_view version_head)
             (request_of true) version_head (world_exported "export/HEAD"));
      reflexivity.
Defined.

(** ** SourceRetrieveUpdateDestroyView.retrieve *)

Lemma filter_filter_andb {X} (f g : X -> bool) (l : list X) :
  List.filter f (List.filter g l) = List.filter (fun x => g x && f x) l.
Proof.
  induction l as [|x l IH]; simpl; [reflexivity|].
  destruct (g x); simpl; [destruct (f x)|]; now rewrite IH.
Qed.

Section RetrieveFacts.
Context {B C M : Type}.
Variable self : SourceRetrieveUpdateDestroyView.View B C M.
Local Abbreviation ConceptVersionDetailSerializer := SourceRetrieveUpdateDestroyView.ConceptVersionDetailSerializer.
Local Abbreviation ConceptVersion_objects := SourceRetrieveUpdateDestroyView.ConceptVersion_objects.
Local Abbreviation MappingDetailSerializer := SourceRetrieveUpdateDestroyView.MappingDetailSerializer.
Local Abbreviation Mapping_objects := SourceRetrieveUpdateDestroyView.Mapping_objects.
Local Abbreviation concepts_of := SourceRetrieveUpdateDestroyView.concepts_of.
Local Abbreviation get_latest_version_of := SourceRetrieveUpdateDestroyView.get_latest_version_of.
Local Abbreviation get_object := SourceRetrieveUpdateDestroyView.get_object.
Local Abbreviation mappings_of := SourceRetrieveUpdateDestroyView.mappings_of.
Local Abbreviation parse_offset := SourceRetrieveUpdateDestroyView.parse_offset.
Local Abbreviation retrieve := SourceRetrieveUpdateDestroyView.retrieve.

(** The filters of the [concepts] key, in the order of the source, keep
    the included children. *)
Lemma concepts_of_window latest ir us offset limit :
  concepts_of self latest ir us offset limit
  = (cs ← child_window (ConceptVersion_objects self) (concepts latest)
            ir us offset limit;
     Ok (ConceptVersionDetailSerializer self cs)).
Proof.
  unfold concepts_of, child_window.
  assert (Hf :
    List.filter (fun c => id_in (concepts latest) (concept_id c))
      (match us with
       | Some since =>
           List.filter (fun c => since <=? concept_updated_at c)
             (if negb ir
              then List.filter (fun c => negb (concept_retired c))
                     (List.filter concept_is_active (ConceptVersion_objects self))
              else List.filter concept_is_active (ConceptVersion_objects self))
       | None =>
           if negb ir
           then List.filter (fun c => negb (concept_retired c))
                  (List.filter concept_is_active (ConceptVersion_objects self))
           else List.filter concept_is_active (ConceptVersion_objects self)
       end)
    = List.filter (included_child (concepts latest) ir us)
        (ConceptVersion_objects self)).
  { destruct us as [since|], ir; simpl; rewrite ?filter_filter_andb;
      apply filter_ext; intros c; unfold included_child; simpl;
      destruct (concept_is_active c), (concept_retired c),
        (id_in (concepts latest) (concept_id c));
      simpl; try reflexivity; destruct (since <=? concept_updated_at c);
      reflexivity. }
  rewrite Hf. destruct (py_add offset limit) as [stop|e]; simpl; reflexivity.
Qed.

(** The filters of the [mappings] key come in another order and keep the
    same children. *)
Lemma mappings_of_window latest ir us offset limit :
  mappings_of self latest ir us offset limit
  = (ms ← child_window (Mapping_objects self) (mappings latest)
            ir us offset limit;
     Ok (MappingDetailSerializer self ms)).
Proof.
  unfold mappings_of, child_window.
  assert (Hf :
    match us with
    | Some since =>
        List.filter (fun m => since <=? mapping_updated_at m)
          (List.filter (fun m => id_in (mappings latest) (mapping_id m))
             (if negb ir
              then List.filter (fun m => negb (mapping_retired m))
                     (List.filter mapping_is_active (Mapping_objects self))
              else List.filter mapping_is_active (Mapping_objects self)))
    | None =>
        List.filter (fun m => id_in (mappings latest) (mapping_id m))
          (if negb ir
           then List.filter (fun m => negb (mapping_retired m))
                  (List.filter mapping_is_active (Mapping_objects self))
           else List.filter mapping_is_active (Mapping_objects self))
    end
    = List.filter (included_child (mappings latest) ir us)
        (Mapping_objects self)).
  { destruct us as [since|], ir; simpl; rewrite ?filter_filter_andb;
      apply filter_ext; intros m; unfold included_child; simpl;
      destruct (mapping_is_active m), (mapping_retired m),
        (id_in (mappings latest) (mapping_id m));
      simpl; try reflexivity; destruct (since <=? mapping_updated_at m);
      reflexivity. }
  rewrite Hf. destruct (py_add offset limit) as [stop|e]; simpl; reflexivity.
Qed.

(** [retrieve] is the detail assembler of section 4.3. *)
Lemma retrieve_detail_assembler request :
  retrieve self request = detail_assembler self request.
Proof.
  unfold retrieve, detail_assembler, include_concepts, include_mappings,
    include_retired, window_limit.
  destruct (get_object self) as [object|e]; simpl; [|reflexivity].
  destruct (parse_offset self request) as [offset|e]; simpl; [|reflexivity].
  destruct (get_flag (QUERY_PARAMS request) INCLUDE_CONCEPTS_PARAM),
    (get_flag (QUERY_PARAMS request) INCLUDE_MAPPINGS_PARAM); simpl;
    try reflexivity;
    (destruct (get_latest_version_of self object) as [latest|e]; simpl;
     [|reflexivity]);
    rewrite ?concepts_of_window, ?mappings_of_window;
    repeat match goal with
           | |- context [child_window ?o ?i ?r ?u ?f ?l] =>
               destruct (child_window o i r u f l); simpl
           end; reflexivity.
Qed.

End RetrieveFacts.

Example retrieve_with_bad_offset :
  data <$> (match SourceRetrieveUpdateDestroyView.retrieve example_detail_view
                    (request_with_query example_detail_query) with
            | Ok r => Some r | Raise _ => None end)
  = Some (SourceRetrieveUpdateDestroyView.mkData "ICD-10"
            (Some [1; 3]) (Some [7; 8])).
Proof. vm_compute. reflexivity. Qed.

Lemma child_window_ok {X} `{Child X} (objects : list X) ids ir us offset l :
  0 <= offset -> 0 <= l ->
  exists cs, child_window objects ids ir us offset (Some l) = Ok cs.
Proof.
  intros Ho Hl. unfold child_window, slice. simpl.
  assert (Hb : (0 <=? offset) && (0 <=? offset + l) = true).
  { apply andb_true_iff. split; apply Z.leb_le; lia. }
  rewrite Hb. eauto.
Qed.

Lemma parse_offset_with_int {B C M}
    (self : SourceRetrieveUpdateDestroyView.View B C M) request s n :
  QUERY_PARAMS request !! OFFSET_PARAM = Some s ->
  SourceRetrieveUpdateDestroyView.parse_offset (with_int self (fun _ => Ok n))
    request = Ok n.
Proof.
  intros Hs. unfold SourceRetrieveUpdateDestroyView.parse_offset.
  rewrite Hs. reflexivity.
Qed.

Lemma parse_offset_value_error {B C M}
    (self : SourceRetrieveUpdateDestroyView.View B C M) request s :
  QUERY_PARAMS request !! OFFSET_PARAM = Some s ->
  SourceRetrieveUpdateDestroyView.int self s = Raise ValueError ->
  SourceRetrieveUpdateDestroyView.parse_offset self request = Ok DEFAULT_OFFSET.
Proof.
  intros Hs Hint. unfold SourceRetrieveUpdateDestroyView.parse_offset.
  rewrite Hs, Hint. reflexivity.
Qed.

(** C8: when the offset of the request does not parse ([int] raises
    [ValueError]), the offset is 0; the request is answered as by a view
    whose [int] gives 0; and it succeeds whenever the rest of the
    request can: the source is found and, if children are requested,
    the latest version resolves and the limit of the window is a
    natural number. *)
Theorem retrieve_offset_parse_failure {B C M}
    (self : SourceRetrieveUpdateDestroyView.View B C M) request s :
  QUERY_PARAMS request !! OFFSET_PARAM = Some s ->
  SourceRetrieveUpdateDestroyView.int self s = Raise ValueError ->
  SourceRetrieveUpdateDestroyView.parse_offset self request = Ok 0
  /\ SourceRetrieveUpdateDestroyView.retrieve self request
     = SourceRetrieveUpdateDestroyView.retrieve
         (with_int self (fun _ => Ok 0)) request
  /\ (forall object,
        SourceRetrieveUpdateDestroyView.get_object self = Ok object ->
        (include_concepts request || include_mappings request = true ->
         is_ok (SourceRetrieveUpdateDestroyView.get_latest_version_of self object)
         = true
         /\ exists l, window_limit self = Some l /\ 0 <= l) ->
        exists resp,
          SourceRetrieveUpdateDestroyView.retrieve self request = Ok resp
          /\ status resp = 200).
Proof.
  intros Hs Hint.
  pose proof (parse_offset_value_error self request s Hs Hint) as Hoff.
  split; [exact Hoff|]. split.
  - rewrite !retrieve_detail_assembler. unfold detail_assembler.
    rewrite Hoff, (parse_offset_with_int self request s 0 Hs). reflexivity.
  - intros object Hobj Hrest.
    rewrite retrieve_detail_assembler. unfold detail_assembler.
    rewrite Hobj, Hoff. simpl.
    destruct (include_concepts request || include_mappings request) eqn:Hinc;
      [|eexists; split; reflexivity].
    destruct (Hrest eq_refl) as (Hlatest & l & Hlimit & Hl).
    destruct (SourceRetrieveUpdateDestroyView.get_latest_version_of self object)
      as [latest|e]; [|discriminate]. simpl. rewrite Hlimit.
    destruct (child_window_ok
                (SourceRetrieveUpdateDestroyView.ConceptVersion_objects self)
                (concepts latest) (include_retired request)
                (SourceRetrieveUpdateDestroyView.parse_updated_since_param
                   self request) 0 l (Z.le_refl 0) Hl) as (cs & Hcs).
    destruct (child_window_ok
                (SourceRetrieveUpdateDestroyView.Mapping_objects self)
                (mappings latest) (include_retired request)
                (SourceRetrieveUpdateDestroyView.parse_updated_since_param
                   self request) 0 l (Z.le_refl 0) Hl) as (ms & Hms).
    unfold DEFAULT_OFFSET. rewrite Hcs, Hms.
    destruct (include_concepts request), (include_mappings request); simpl;
      eexists; split; reflexivity.
Qed.

(** C10: when both [includeConcepts] and [includeMappings] are
    requested, the [concepts] and the [mappings] of the response are the
    windows of the included children of one and the same latest
    version, with the same offset, the same limit, the same
    [includeRetired] flag and the same [updatedSince]. *)
Theorem retrieve_both_children {B C M}
    (self : SourceRetrieveUpdateDestroyView.View B C M) request :
  include_concepts request = true ->
  include_mappings request = true ->
  SourceRetrieveUpdateDestroyView.retrieve self request
  = (object ← SourceRetrieveUpdateDestroyView.get_object self;
     offset ← SourceRetrieveUpdateDestroyView.parse_offset self request;
     latest ← SourceRetrieveUpdateDestroyView.get_latest_version_of self object;
     cs ← child_window
            (SourceRetrieveUpdateDestroyView.ConceptVersion_objects self)
            (concepts latest) (include_retired request)
            (SourceRetrieveUpdateDestroyView.parse_updated_since_param
               self request)
            offset (window_limit self);
     ms ← child_window
            (SourceRetrieveUpdateDestroyView.Mapping_objects self)
            (mappings latest) (include_retired request)
            (SourceRetrieveUpdateDestroyView.parse_updated_since_param
               self request)
            offset (window_limit self);
     Ok (mkResponse 200 ∅
           (SourceRetrieveUpdateDestroyView.mkData
              (SourceRetrieveUpdateDestroyView.get_serializer self object)
              (Some (SourceRetrieveUpdateDestroyView.ConceptVersionDetailSerializer
                       self cs))
              (Some (SourceRetrieveUpdateDestroyView.MappingDetailSerializer
                       self ms))))).
Proof.
  intros Hc Hm. rewrite retrieve_detail_assembler. unfold detail_assembler.
  rewrite Hc, Hm. simpl.
  destruct (SourceRetrieveUpdateDestroyView.get_object self) as [object|e];
    simpl; [|reflexivity].
  destruct (SourceRetrieveUpdateDestroyView.parse_offset self request)
    as [offset|e]; simpl; [|reflexivity].
  destruct (SourceRetrieveUpdateDestroyView.get_latest_version_of self object)
    as [latest|e]; simpl; [|reflexivity].
  destruct (child_window
              (SourceRetrieveUpdateDestroyView.ConceptVersion_objects self) _ _ _ _ _)
    as [cs|e]; simpl; [|reflexivity].
  destruct (child_window
              (SourceRetrieveUpdateDestroyView.Mapping_objects self) _ _ _ _ _)
    as [ms|e]; simpl; reflexivity.
Qed.

Lemma retrieve_offset_parse_failure_witness :
  SourceRetrieveUpdateDestroyView.parse_offset example_detail_view
    (request_with_query example_detail_query) = Ok 0
  /\ exists resp,
       SourceRetrieveUpdateDestroyView.retrieve example_detail_view
         (request_with_query example_detail_query) = Ok resp
       /\ status resp = 200.
Proof.
  destruct (retrieve_offset_parse_failure example_detail_view
              (request_with_query example_detail_query) "abc")
    as (Hoffset & _ & Hsucceeds).
  - vm_compute. reflexivity.
  - reflexivity.
  - split; [exact Hoffset|].
    apply (Hsucceeds (mkSource 1 "ICD-10")); [reflexivity|].
    intros _. split; [reflexivity|].
    exists 2. split; [reflexivity | lia].
Defined.

Lemma retrieve_both_children_witness :
  SourceRetrieveUpdateDestroyView.retrieve example_detail_view
    (request_with_query example_detail_query)
  = Ok (mkResponse 200 ∅
          (SourceRetrieveUpdateDestroyView.mkData "ICD-10"
             (Some [1; 3]) (Some [7; 8]))).
Proof.
  rewrite (retrieve_both_children example_detail_view
             (request_with_query example_detail_query)).
  - vm_compute. reflexivity.
  - vm_compute. reflexivity.
  - vm_compute. reflexivity.
Defined.

(** ** PathWalkerMixin.get_parent_in_path *)

Example parent_of_source :
  PathWalkerMixin.get_parent_in_path (path "/orgs/OCL/sources/ICD-10/") 1
  = Ok (path "/orgs/OCL/sources/").
Proof. reflexivity. Qed.

Example parent_without_trailing_slash :
  PathWalkerMixin.get_parent_in_path (path "/orgs/OCL/sources/ICD-10") 2
  = Ok (path "/orgs/OCL/").
Proof. reflexivity. Qed.

Example parent_too_high :
  PathWalkerMixin.get_parent_in_path (path "/orgs/OCL/") 3 = Raise ValueError.
Proof. reflexivity. Qed.

Example parent_of_root :
  PathWalkerMixin.get_parent_in_path (path "/") 1 = Raise ValueError.
Proof. reflexivity. Qed.

Section PathWalkerFacts.
Local Abbreviation str := PathWalkerMixin.str.
Local Abbreviation slash := PathWalkerMixin.slash.
Local Abbreviation rfind := PathWalkerMixin.rfind.
Local Abbreviation clamp := PathWalkerMixin.clamp.
Local Abbreviation rindex := PathWalkerMixin.rindex.
Local Abbreviation slice_to := PathWalkerMixin.slice_to.
Local Abbreviation walk := PathWalkerMixin.walk.
Local Abbreviation get_parent_in_path := PathWalkerMixin.get_parent_in_path.

Lemma rfind_None (c : ascii) (s : str) :
  rfind c s = None <-> count_occ ascii_dec s c = O.
Proof.
  induction s as [|x tl IH]; simpl; [tauto|].
  destruct (rfind c tl) as [j|].
  - split; [discriminate|]. intros Hc.
    destruct (ascii_dec x c); [discriminate|].
    apply IH in Hc. discriminate.
  - destruct (ascii_dec x c) as [->|Hne].
    + rewrite Ascii.eqb_refl. split; discriminate.
    + apply Ascii.eqb_neq in Hne. rewrite Hne. tauto.
Qed.

Lemma rfind_Some (c : ascii) (s : str) (i : nat) :
  rfind c s = Some i ->
  (i < length s)%nat
  /\ firstn (S i) s = firstn i s ++ [c]
  /\ count_occ ascii_dec (firstn (S i) s) c = count_occ ascii_dec s c.
Proof.
  revert i. induction s as [|x tl IH]; intros i; [discriminate|].
  cbn [PathWalkerMixin.rfind].
  destruct (rfind c tl) as [j|] eqn:Hj.
  - intros [= <-]. destruct (IH j eq_refl) as (Hlt & Hfirst & Hcount).
    split; [simpl; lia|]. split.
    + change (x :: firstn (S j) tl = x :: (firstn j tl ++ [c])). now rewrite Hfirst.
    + change (count_occ ascii_dec (x :: firstn (S j) tl) c
              = count_occ ascii_dec (x :: tl) c).
      simpl. rewrite Hcount. reflexivity.
  - destruct (Ascii.eqb x c) eqn:Hx; [|discriminate].
    apply Ascii.eqb_eq in Hx. subst x. intros [= <-].
    split; [simpl; lia|]. split; [reflexivity|].
    apply rfind_None in Hj. simpl.
    destruct (ascii_dec c c); [|contradiction]. now rewrite Hj.
Qed.

Lemma rfind_last (c : ascii) (s : str) :
  rfind c (s ++ [c]) = Some (length s).
Proof.
  induction s as [|x tl IH]; simpl.
  - now rewrite Ascii.eqb_refl.
  - now rewrite IH.
Qed.

Lemma clamp_inside (s : str) (k : nat) :
  (k <= length s)%nat -> clamp s (Z.of_nat k) = k.
Proof.
  intros Hk. unfold PathWalkerMixin.clamp.
  destruct (Z.of_nat k <? 0) eqn:Hneg; [apply Z.ltb_lt in Hneg; lia|].
  rewrite Z.min_l by lia. apply Nat2Z.id.
Qed.

Lemma clamp_last (s : str) :
  clamp s (Z.of_nat (length s) - 1) = (length s - 1)%nat.
Proof.
  unfold PathWalkerMixin.clamp. destruct s as [|x tl].
  - reflexivity.
  - destruct (_ <? 0) eqn:Hneg; [apply Z.ltb_lt in Hneg; simpl length in *; lia|].
    simpl length. lia.
Qed.

(** A slash found at [k] in a window of [m] characters of [s]: the slice
    up to it is the window up to it, ends with it and has the slashes of
    the window. *)
Lemma slice_to_found (s : str) (m k : nat) :
  rfind slash (firstn m s) = Some k ->
  (k < length s)%nat /\ (k < m)%nat
  /\ slice_to s (Z.of_nat k + 1) = firstn k s ++ [slash]
  /\ slashes (slice_to s (Z.of_nat k + 1)) = slashes (firstn m s).
Proof.
  intros Hk. apply rfind_Some in Hk as (Hlt & Hfirst & Hcount).
  rewrite length_firstn in Hlt.
  assert (Hks : (k < length s)%nat) by lia.
  assert (Hkm : (k < m)%nat) by lia.
  assert (Hnest : forall j, (j <= m)%nat -> firstn j (firstn m s) = firstn j s).
  { intros j Hj. rewrite firstn_firstn. f_equal. lia. }
  rewrite !Hnest in Hfirst by lia. rewrite Hnest in Hcount by lia.
  unfold PathWalkerMixin.slice_to.
  replace (Z.of_nat k + 1) with (Z.of_nat (S k)) by lia.
  rewrite clamp_inside by lia.
  repeat split; trivial.
Qed.

Lemma removelast_firstn (s : str) :
  firstn (length s - 1) s = removelast s.
Proof.
  rewrite removelast_firstn_len. f_equal. lia.
Qed.

(** One turn of the loop is [parent]. *)
Lemma walk_S (n : nat) (s : str) :
  walk (S n) s = parent s ≫= walk n.
Proof.
  cbn [PathWalkerMixin.walk]. unfold PathWalkerMixin.rindex, parent.
  rewrite clamp_last, removelast_firstn.
  destruct (rfind slash (removelast s)) as [k|] eqn:Hk; [|reflexivity].
  rewrite <- removelast_firstn in Hk.
  apply slice_to_found in Hk as (_ & _ & Hslice & _).
  simpl. now rewrite Hslice.
Qed.

Lemma rfind_not_last (c x : ascii) (s : str) :
  x <> c -> rfind c (s ++ [x]) = rfind c s.
Proof.
  intros Hne. induction s as [|y tl IH]; simpl.
  - apply Ascii.eqb_neq in Hne. now rewrite Hne.
  - now rewrite IH.
Qed.

(** What comes before the loop is one more turn of it: a slash at the
    end of the path is looked behind, any other last character cannot be
    the slash that is found. *)
Lemma first_level (s : str) :
  get_parent_in_path s 1 = parent s.
Proof.
  unfold PathWalkerMixin.get_parent_in_path.
  change (1 <? 1) with false. cbn iota.
  destruct s as [|x s' _] using rev_ind; [reflexivity|].
  assert (Hlast : Z.of_nat (length (s' ++ [x])) - 1 = Z.of_nat (length s')).
  { rewrite length_app. simpl. lia. }
  assert (Hwindow : firstn (length s') (s' ++ [x]) = s').
  { rewrite firstn_app, Nat.sub_diag, firstn_all. simpl. apply app_nil_r. }
  assert (Hparent : parent (s' ++ [x])
                    = match rfind slash s' with
                      | Some k => Ok (firstn k (s' ++ [x]) ++ [slash])
                      | None => Raise ValueError
                      end).
  { unfold parent. now rewrite removelast_last. }
  assert (Hbehind :
    (last_slash ← rindex (s' ++ [x]) (Some (Z.of_nat (length (s' ++ [x])) - 1));
     Ok (slice_to (s' ++ [x]) (last_slash + 1))) = parent (s' ++ [x])).
  { pose proof (walk_S 0 (s' ++ [x])) as Hw. cbn [PathWalkerMixin.walk] in Hw.
    rewrite Hw. destruct (parent (s' ++ [x])); reflexivity. }
  destruct (ascii_dec x slash) as [->|Hne].
  - assert (Hr : rindex (s' ++ [slash]) None = Ok (Z.of_nat (length s'))).
    { unfold PathWalkerMixin.rindex. now rewrite rfind_last. }
    rewrite Hr. simpl mbind. cbn beta iota.
    rewrite Hlast, Z.eqb_refl. rewrite <- Hlast.
    rewrite <- Hbehind.
    destruct (rindex (s' ++ [slash])
                (Some (Z.of_nat (length (s' ++ [slash])) - 1))); reflexivity.
  - assert (Hr : rindex (s' ++ [x]) None
                 = match rfind slash s' with
                   | Some k => Ok (Z.of_nat k)
                   | None => Raise ValueError
                   end).
    { unfold PathWalkerMixin.rindex. now rewrite (rfind_not_last _ _ _ Hne). }
    rewrite Hr, Hparent.
    destruct (rfind slash s') as [k|] eqn:Hk; [|reflexivity].
    pose proof Hk as Hk'. rewrite <- Hwindow in Hk'.
    apply slice_to_found in Hk' as (_ & Hlt & Hslice & _).
    simpl mbind. cbn beta iota. rewrite Hlast.
    replace (Z.of_nat k =? Z.of_nat (length s')) with false
      by (symmetry; apply Z.eqb_neq; lia).
    simpl. now rewrite Hslice.
Qed.

Lemma bind_Ok_r {X} (m : result X) : m ≫= Ok = m.
Proof. destruct m; reflexivity. Qed.

Lemma bind_assoc {X Y W} (m : result X) (f : X -> result Y)
    (g : Y -> result W) :
  (m ≫= f) ≫= g = m ≫= (fun x => f x ≫= g).
Proof. destruct m; reflexivity. Qed.

(** [get_parent_in_path] is the loop, one turn at least. *)
Lemma get_parent_in_path_walk (s : str) (levels : Z) :
  get_parent_in_path s levels = walk (levels_up levels) s.
Proof.
  assert (Hsplit : get_parent_in_path s levels
                   = get_parent_in_path s 1
                     ≫= fun q => if 1 <? levels
                                 then walk (Z.to_nat (levels - 1)) q
                                 else Ok q).
  { unfold PathWalkerMixin.get_parent_in_path. change (1 <? 1) with false.
    cbn iota.
    destruct (rindex s None) as [i|e]; [|reflexivity]. simpl.
    destruct (if i =? Z.of_nat (length s) - 1
              then rindex s (Some (Z.of_nat (length s) - 1))
              else Ok i); reflexivity. }
  rewrite Hsplit, first_level. unfold levels_up.
  destruct (1 <? levels) eqn:Hl.
  - apply Z.ltb_lt in Hl.
    replace (Z.to_nat (Z.max levels 1)) with (S (Z.to_nat (levels - 1))) by lia.
    now rewrite walk_S.
  - apply Z.ltb_ge in Hl.
    replace (Z.to_nat (Z.max levels 1)) with 1%nat by lia.
    rewrite walk_S. reflexivity.
Qed.

Lemma walk_add (n m : nat) (s : str) :
  walk (n + m) s = walk n s ≫= walk m.
Proof.
  revert s. induction n as [|n IH]; intros s; [reflexivity|].
  change (S n + m)%nat with (S (n + m)). rewrite !walk_S, bind_assoc.
  destruct (parent s) as [q|e]; simpl; [apply IH | reflexivity].
Qed.

Lemma slashes_app (a b : str) : slashes (a ++ b) = (slashes a + slashes b)%nat.
Proof. apply count_occ_app. Qed.

Lemma slashes_slash : slashes [slash] = 1%nat.
Proof. reflexivity. Qed.

(** The parent, when there is one: it ends with a slash, the path goes
    on after it, and it is one level up. *)
Lemma parent_ok (s q : str) :
  parent s = Ok q ->
  ends_with_slash q
  /\ (exists r, r <> [] /\ s = q ++ r)
  /\ slashes q = depth s
  /\ S (depth q) = depth s.
Proof.
  unfold parent, depth.
  destruct (rfind slash (removelast s)) as [k|] eqn:Hk; [|discriminate].
  intros [= <-].
  apply rfind_Some in Hk as (Hlt & Hfirst & Hcount).
  assert (Hlen : length (removelast s) = (length s - 1)%nat).
  { rewrite <- removelast_firstn, length_firstn. lia. }
  assert (Hnest : forall j, (j <= length s - 1)%nat ->
                            firstn j (removelast s) = firstn j s).
  { intros j Hj. rewrite <- removelast_firstn, firstn_firstn. f_equal. lia. }
  rewrite Hlen in Hlt. rewrite !Hnest in Hfirst by lia.
  rewrite Hnest in Hcount by lia.
  split; [eexists; reflexivity|]. split; [|split].
  - exists (skipn (S k) s). split.
    + intros Hnil. apply (f_equal (@length ascii)) in Hnil.
      rewrite length_skipn in Hnil. simpl in Hnil. lia.
    + rewrite <- Hfirst. symmetry. apply firstn_skipn.
  - rewrite <- Hfirst. exact Hcount.
  - rewrite removelast_last. unfold slashes in *.
    rewrite <- Hcount, Hfirst, count_occ_app. simpl. lia.
Qed.

Lemma parent_raise (s : str) (e : exn) :
  parent s = Raise e -> e = ValueError /\ depth s = O.
Proof.
  unfold parent, depth.
  destruct (rfind slash (removelast s)) as [k|] eqn:Hk; [discriminate|].
  intros [= <-]. split; [reflexivity | now apply rfind_None].
Qed.

Lemma walk_ok (n : nat) (s q : str) :
  walk (S n) s = Ok q ->
  ends_with_slash q
  /\ (exists r, r <> [] /\ s = q ++ r)
  /\ (slashes q + n)%nat = depth s.
Proof.
  revert s. induction n as [|n IH]; intros s; rewrite walk_S; intros Hw;
    apply bind_ok in Hw as (p & Hp & Hw);
    apply parent_ok in Hp as (Hend & (r0 & Hr0 & Hs) & Hslashes & Hdepth).
  - injection Hw as <-. repeat split; eauto. lia.
  - apply IH in Hw as (Hq & (r & Hr & Hpq) & Hcount).
    split; [exact Hq|]. split; [|lia].
    exists (r ++ r0). split.
    + intros Happ. apply app_eq_nil in Happ as [? _]. contradiction.
    + rewrite Hs, Hpq. now rewrite <- app_assoc.
Qed.

Lemma walk_raise (n : nat) (s : str) (e : exn) :
  walk n s = Raise e -> e = ValueError /\ (depth s < n)%nat.
Proof.
  revert s. induction n as [|n IH]; intros s; [discriminate|].
  rewrite walk_S. destruct (parent s) as [p|e'] eqn:Hp; simpl.
  - intros Hw. apply IH in Hw as [-> Hlt].
    apply parent_ok in Hp as (_ & _ & _ & Hdepth). split; [reflexivity | lia].
  - intros [= <-]. apply parent_raise in Hp as [-> Hdepth].
    split; [reflexivity | lia].
Qed.

Lemma levels_up_pos (levels : Z) : exists n, levels_up levels = S n.
Proof.
  unfold levels_up. exists (Z.to_nat (Z.max levels 1) - 1)%nat. lia.
Qed.

(** X1: a parent path is a strictly shorter prefix of the path, and it
    ends with a slash. *)
Theorem get_parent_in_path_prefix (s q : str) (levels : Z) :
  get_parent_in_path s levels = Ok q ->
  ends_with_slash q /\ exists r, r <> [] /\ s = q ++ r.
Proof.
  rewrite get_parent_in_path_walk.
  destruct (levels_up_pos levels) as (n & ->).
  intros Hw. apply walk_ok in Hw as (Hend & Hprefix & _). split; assumption.
Qed.

(** X2: one slash at the end of the path makes no difference. *)
Theorem get_parent_in_path_trailing_slash (s : str) (levels : Z) :
  ~ ends_with_slash s ->
  get_parent_in_path (s ++ [slash]) levels = get_parent_in_path s levels.
Proof.
  intros Hend. rewrite !get_parent_in_path_walk.
  destruct (levels_up_pos levels) as (n & ->). rewrite !walk_S.
  f_equal. unfold parent. rewrite removelast_last.
  destruct s as [|x s' _] using rev_ind; [reflexivity|].
  assert (Hx : x <> slash).
  { intros ->. apply Hend. now exists s'. }
  rewrite removelast_last, (rfind_not_last _ _ _ Hx).
  destruct (rfind slash s') as [k|] eqn:Hk; [|reflexivity].
  apply rfind_Some in Hk as (Hlt & _).
  rewrite <- !app_assoc, !(firstn_app k s').
  replace (k - length s')%nat with O by lia. reflexivity.
Qed.

(** X3: levels below one count as one, and going up [a + b] levels is
    going up [a] levels and then [b] levels. *)
Theorem get_parent_in_path_compose (s : str) (a b : Z) :
  (a <= 1 -> get_parent_in_path s a = get_parent_in_path s 1)
  /\ (1 <= a -> 1 <= b ->
      get_parent_in_path s (a + b)
      = get_parent_in_path s a ≫= fun q => get_parent_in_path q b).
Proof.
  split.
  - intros Ha. rewrite !get_parent_in_path_walk. unfold levels_up.
    f_equal. lia.
  - intros Ha Hb. rewrite !get_parent_in_path_walk.
    replace (levels_up (a + b)) with (levels_up a + levels_up b)%nat
      by (unfold levels_up; lia).
    rewrite walk_add.
    destruct (walk (levels_up a) s) as [q|e]; simpl; [|reflexivity].
    now rewrite get_parent_in_path_walk.
Qed.

(** X4: [get_parent_in_path] returns exactly when the path has as many
    slashes before its last character as there are levels to go up, and
    the parent keeps the slashes that are left; with fewer slashes it
    raises [ValueError]. *)
Theorem get_parent_in_path_depth (s : str) (levels : Z) :
  ((levels_up levels <= depth s)%nat ->
   exists q,
     get_parent_in_path s levels = Ok q
     /\ (slashes q + levels_up levels)%nat = S (depth s))
  /\ ((depth s < levels_up levels)%nat ->
      get_parent_in_path s levels = Raise ValueError).
Proof.
  rewrite get_parent_in_path_walk.
  destruct (levels_up_pos levels) as (n & ->).
  destruct (walk (S n) s) as [q|e] eqn:Hw.
  - apply walk_ok in Hw as ((q' & ->) & _ & Hcount).
    rewrite slashes_app, slashes_slash in Hcount. split.
    + intros _. eexists. split; [reflexivity|].
      rewrite slashes_app, slashes_slash. lia.
    + lia.
  - apply walk_raise in Hw as [-> Hlt]. split; [lia | reflexivity].
Qed.

End PathWalkerFacts.

Lemma get_parent_in_path_prefix_witness :
  ends_with_slash (path "/orgs/OCL/sources/")
  /\ exists r, r <> [] /\ path "/orgs/OCL/sources/ICD-10/"
                          = path "/orgs/OCL/sources/" ++ r.
Proof.
  apply (get_parent_in_path_prefix (path "/orgs/OCL/sources/ICD-10/")
           (path "/orgs/OCL/sources/") 1).
  reflexivity.
Defined.

Lemma get_parent_in_path_trailing_slash_witness :
  PathWalkerMixin.get_parent_in_path
    (path "/orgs/OCL/sources/ICD-10" ++ [PathWalkerMixin.slash]) 2
  = PathWalkerMixin.get_parent_in_path (path "/orgs/OCL/sources/ICD-10") 2.
Proof.
  apply (get_parent_in_path_trailing_slash (path "/orgs/OCL/sources/ICD-10") 2).
  intros (s' & Hs').
  apply (f_equal (@rev ascii)) in Hs'. rewrite rev_unit in Hs'.
  discriminate Hs'.
Defined.

Lemma get_parent_in_path_compose_witness :
  PathWalkerMixin.get_parent_in_path (path "/orgs/OCL/sources/ICD-10/") 0
  = PathWalkerMixin.get_parent_in_path (path "/orgs/OCL/sources/ICD-10/") 1
  /\ PathWalkerMixin.get_parent_in_path (path "/orgs/OCL/sources/ICD-10/") (1 + 2)
     = PathWalkerMixin.get_parent_in_path (path "/orgs/OCL/sources/ICD-10/") 1
       ≫= fun q => PathWalkerMixin.get_parent_in_path q 2.
Proof.
  split.
  - apply (get_parent_in_path_compose (path "/orgs/OCL/sources/ICD-10/") 0 1).
    lia.
  - apply (get_parent_in_path_compose (path "/orgs/OCL/sources/ICD-10/") 1 2);
      lia.
Defined.

Lemma get_parent_in_path_depth_witness :
  (exists q,
     PathWalkerMixin.get_parent_in_path (path "/orgs/OCL/") 2 = Ok q
     /\ (slashes q + levels_up 2)%nat = S (depth (path "/orgs/OCL/")))
  /\ PathWalkerMixin.get_parent_in_path (path "/orgs/OCL/") 3
     = Raise ValueError.
Proof.
  split.
  - apply (get_parent_in_path_depth (path "/orgs/OCL/") 2). vm_compute. lia.
  - apply (get_parent_in_path_depth (path "/orgs/OCL/") 3). vm_compute. lia.
Defined.

(** ** prepend_head: errors and idempotence *)

Lemma filter_idem {X} (f : X -> bool) (l : list X) :
  List.filter f (List.filter f l) = List.filter f l.
Proof.
  induction l as [|x l IH]; simpl; [reflexivity|].
  destruct (f x) eqn:Hx; simpl; [rewrite Hx|]; now rewrite ?IH.
Qed.

Lemma filter_disjoint {X} (f g : X -> bool) (l : list X) :
  (forall x, f x = true -> g x = false) ->
  List.filter g (List.filter f l) = [].
Proof.
  intros Hfg. induction l as [|x l IH]; simpl; [reflexivity|].
  destruct (f x) eqn:Hx; simpl; [rewrite (Hfg x Hx)|]; exact IH.
Qed.

Section PrependHeadMore.
Context {A : Type} `{Mnemonic A}.
Local Abbreviation is_head := ListWithHeadersMixin.is_head.
Local Abbreviation non_head := ListWithHeadersMixin.non_head.
Local Abbreviation hasattr_mnemonic := ListWithHeadersMixin.hasattr_mnemonic.
Local Abbreviation attr_mnemonic := ListWithHeadersMixin.attr_mnemonic.
Local Abbreviation prepend_head := ListWithHeadersMixin.prepend_head.

Lemma is_head_hasattr (el : A) : is_head el = true -> hasattr_mnemonic el = true.
Proof.
  unfold ListWithHeadersMixin.is_head, ListWithHeadersMixin.hasattr_mnemonic.
  destruct (getattr_mnemonic el); [reflexivity | discriminate].
Qed.

(** The second comprehension raises only [AttributeError], and exactly
    on a list with an element without mnemonic. *)
Lemma non_head_raise (l : list A) :
  (exists e, non_head l = Raise e)
  <-> Exists (fun el => hasattr_mnemonic el = false) l.
Proof.
  induction l as [|el tl IH]; simpl.
  - split; [intros (e & He); discriminate | intros Hex; inversion Hex].
  - unfold ListWithHeadersMixin.attr_mnemonic,
      ListWithHeadersMixin.hasattr_mnemonic in *.
    destruct (getattr_mnemonic el) as [m|] eqn:Hm; simpl.
    + destruct (non_head tl) as [r|e]; simpl.
      * split; [intros (e & He); discriminate|].
        intros Hex. inversion Hex as [? ? Hel|? ? Htl]; subst.
        -- rewrite Hm in Hel. discriminate.
        -- apply IH in Htl as (e & He). discriminate.
      * split; [|eauto]. intros _. apply Exists_cons_tl, IH. eauto.
    + split; [|eauto]. intros _. apply Exists_cons_hd. now rewrite Hm.
Qed.

Lemma non_head_raise_kind (l : list A) (e : exn) :
  non_head l = Raise e -> e = AttributeError.
Proof.
  induction l as [|el tl IH]; simpl; [discriminate|].
  unfold ListWithHeadersMixin.attr_mnemonic.
  destruct (getattr_mnemonic el); simpl; [|congruence].
  destruct (non_head tl); simpl; [discriminate|].
  intros [= <-]. now apply IH.
Qed.

Lemma prepend_head_raises_when (l : list A) :
  (exists e, prepend_head l = Raise e)
  <-> (exists o0 tl, l = o0 :: tl /\ hasattr_mnemonic o0 = true)
      /\ has_head l
      /\ Exists (fun el => hasattr_mnemonic el = false) l.
Proof.
  destruct l as [|o0 tl].
  - split; [intros (e & He); discriminate|].
    intros ((o0 & tl & Hl & _) & _). discriminate.
  - unfold ListWithHeadersMixin.prepend_head.
    destruct (hasattr_mnemonic o0) eqn:H0.
    + destruct (List.filter is_head (o0 :: tl)) as [|h hs] eqn:Hheads.
      * split; [intros (e & He); discriminate|].
        intros (_ & Hhead & _). apply filter_is_head_nil in Hheads.
        contradiction.
      * assert (Hhead : has_head (o0 :: tl)).
        { destruct (filter_is_head_nil (o0 :: tl)) as [_ Hnil].
          assert (Hin : In h (List.filter is_head (o0 :: tl)))
            by (rewrite Hheads; now left).
          apply filter_In in Hin as [Hin Hh]. exists h.
          split; [exact Hin | now apply is_head_spec]. }
        rewrite <- non_head_raise.
        destruct (non_head (o0 :: tl)) as [rest|e]; simpl.
        -- split; [intros (e & He); discriminate|].
           intros (_ & _ & (e & He)). discriminate.
        -- split; [intros _|eauto]. repeat split; eauto.
    + split; [intros (e & He); discriminate|].
      intros ((o & t & [= <- <-] & Ho) & _). congruence.
Qed.

Lemma prepend_head_raise_kind (l : list A) (e : exn) :
  prepend_head l = Raise e -> e = AttributeError.
Proof.
  destruct l as [|o0 tl]; [discriminate|].
  unfold ListWithHeadersMixin.prepend_head.
  destruct (hasattr_mnemonic o0); [|discriminate].
  destruct (List.filter is_head (o0 :: tl)); [discriminate|].
  destruct (non_head (o0 :: tl)) eqn:Hn; simpl; [discriminate|].
  intros [= <-]. now apply non_head_raise_kind in Hn.
Qed.

(** X5: [prepend_head] raises on one kind of list only, and then it is
    an [AttributeError]: the first element has a mnemonic, some element
    is HEAD, and some element has no mnemonic. *)
Theorem prepend_head_raises_iff (l : list A) :
  (prepend_head l = Raise AttributeError
   <-> (exists o0 tl, l = o0 :: tl /\ hasattr_mnemonic o0 = true)
       /\ has_head l
       /\ Exists (fun el => hasattr_mnemonic el = false) l)
  /\ (forall e, prepend_head l = Raise e -> e = AttributeError).
Proof.
  split; [|apply prepend_head_raise_kind].
  rewrite <- prepend_head_raises_when. split; [eauto|].
  intros (e & He). pose proof (prepend_head_raise_kind l e He). congruence.
Qed.

Lemma non_head_all (l rest : list A) :
  non_head l = Ok rest -> Forall (fun el => hasattr_mnemonic el = true) l.
Proof.
  intros Hok. apply List.Forall_forall. intros el Hin.
  destruct (hasattr_mnemonic el) eqn:Hel; [reflexivity|]. exfalso.
  assert (Hex : Exists (fun el => hasattr_mnemonic el = false) l).
  { apply List.Exists_exists. eauto. }
  apply non_head_raise in Hex as (e & He). congruence.
Qed.

(** X6: [prepend_head] is idempotent: what it returns, it returns
    unchanged. *)
Theorem prepend_head_idempotent (l l' : list A) :
  prepend_head l = Ok l' -> prepend_head l' = Ok l'.
Proof.
  intros Hl. destruct l as [|o0 tl]; [now injection Hl as <-|].
  pose proof Hl as Hl0. unfold ListWithHeadersMixin.prepend_head in Hl.
  destruct (hasattr_mnemonic o0) eqn:H0; [|now injection Hl as <-].
  destruct (List.filter is_head (o0 :: tl)) as [|h hs] eqn:Hheads;
    [now injection Hl as <-|].
  rewrite <- Hheads in Hl. apply bind_ok in Hl as (rest & Hrest & [= <-]).
  pose proof (non_head_all _ _ Hrest) as Hall.
  apply non_head_ok in Hrest. subst rest.
  set (heads := List.filter is_head (o0 :: tl)) in *.
  set (others := List.filter (fun el => negb (is_head el)) (o0 :: tl)).
  assert (Hall' : Forall (fun el => hasattr_mnemonic el = true) (heads ++ others)).
  { apply Forall_app. rewrite List.Forall_forall in Hall.
    split; apply List.Forall_forall; intros el Hin;
      apply filter_In in Hin as [Hin _]; now apply Hall. }
  assert (Hfh : List.filter is_head (heads ++ others) = heads).
  { rewrite List.filter_app. unfold heads, others. rewrite filter_idem.
    rewrite (filter_disjoint (fun el => negb (is_head el)) is_head).
    - apply app_nil_r.
    - intros x Hx. now destruct (is_head x). }
  assert (Hfo : List.filter (fun el => negb (is_head el)) (heads ++ others)
                = others).
  { rewrite List.filter_app. unfold heads, others. rewrite filter_idem.
    rewrite (filter_disjoint is_head (fun el => negb (is_head el))).
    - reflexivity.
    - intros x Hx. now rewrite Hx. }
  assert (Hh : hasattr_mnemonic h = true).
  { apply is_head_hasattr.
    assert (Hin : In h heads) by (rewrite Hheads; now left).
    now apply filter_In in Hin. }
  assert (Hstart : exists xs, heads ++ others = h :: xs).
  { rewrite Hheads. simpl. eauto. }
  destruct Hstart as (xs & Hstart).
  change (prepend_head (heads ++ others) = Ok (heads ++ others)).
  rewrite Hstart in *.
  unfold ListWithHeadersMixin.prepend_head.
  rewrite Hh, Hfh, (non_head_total _ Hall'), Hfo. simpl mbind.
  rewrite Hstart, Hheads. reflexivity.
Qed.

End PrependHeadMore.

Lemma prepend_head_raises_iff_witness :
  ListWithHeadersMixin.prepend_head [mkObj 2 (Some "HEAD"); mkObj 1 None]
  = Raise AttributeError.
Proof.
  apply (prepend_head_raises_iff [mkObj 2 (Some "HEAD"); mkObj 1 None]).
  split; [|split].
  - eexists _, _. split; reflexivity.
  - exists (mkObj 2 (Some "HEAD")). split; [now left | reflexivity].
  - apply Exists_cons_tl, Exists_cons_hd. reflexivity.
Defined.

Lemma prepend_head_idempotent_witness :
  ListWithHeadersMixin.prepend_head
    [mkObj 2 (Some "HEAD"); mkObj 1 (Some "v1"); mkObj 3 (Some "v2")]
  = Ok [mkObj 2 (Some "HEAD"); mkObj 1 (Some "v1"); mkObj 3 (Some "v2")].
Proof.
  apply (prepend_head_idempotent
           [mkObj 1 (Some "v1"); mkObj 2 (Some "HEAD"); mkObj 3 (Some "v2")]).
  reflexivity.
Defined.

(** ** ListWithHeadersMixin.list: pagination *)

Section ListPagination.
Context {A P D S : Type} `{Mnemonic A}.
Variable self : ListWithHeadersMixin.View A P D S.
Variable request : Request.
Local Abbreviation prepend_head := ListWithHeadersMixin.prepend_head.
Local Abbreviation items := ListWithHeadersMixin.items.
Local Abbreviation respond := (@ListWithHeadersMixin.respond D S).

Lemma prepend_head_length (l l' : list A) :
  prepend_head l = Ok l' -> length l' = length l.
Proof.
  intros Hl. destruct l as [|o0 tl]; [now injection Hl as <-|].
  unfold ListWithHeadersMixin.prepend_head in Hl.
  destruct (ListWithHeadersMixin.hasattr_mnemonic o0); [|now injection Hl as <-].
  destruct (List.filter ListWithHeadersMixin.is_head (o0 :: tl)) eqn:Hheads;
    [now injection Hl as <-|].
  rewrite <- Hheads in Hl. apply bind_ok in Hl as (rest & Hrest & [= <-]).
  apply non_head_ok in Hrest. subst rest.
  symmetry. apply Permutation_length. exact (heads_first_perm (o0 :: tl)).
Qed.

Lemma results_of_respond facets (results : ListWithHeadersMixin.Results D S) h :
  results_of (data (respond facets results h)) = results
  /\ headers (respond facets results h) = h
  /\ status (respond facets results h) = 200.
Proof.
  unfold ListWithHeadersMixin.respond. destruct facets as [f|]; simpl;
    [destruct (ListWithHeadersMixin.truthy_facets f)|]; repeat split.
Qed.

(** The flat answer: everything, HEAD first. *)
Lemma list_skipping :
  skips_pagination self request = true ->
  ListWithHeadersMixin.list self request
  = (objects ← prepend_head (items (collection self));
     Ok (respond (kept_facets self request)
           (ListWithHeadersMixin.Flat
              (ListWithHeadersMixin.get_serializer self objects)) ∅)).
Proof.
  unfold skips_pagination, ListWithHeadersMixin.list, kept_facets, collection.
  intros ->. reflexivity.
Qed.

Lemma list_paginating :
  skips_pagination self request = false ->
  ListWithHeadersMixin.list self request
  = (objects ← prepend_head (items (collection self));
     page ← ListWithHeadersMixin.paginate_queryset self objects;
     match page with
     | Some page =>
         Ok (respond (kept_facets self request)
               (ListWithHeadersMixin.Paginated
                  (fst (ListWithHeadersMixin.get_pagination_serializer self page)))
               (snd (ListWithHeadersMixin.get_pagination_serializer self page)))
     | None =>
         Ok (respond (kept_facets self request)
               (ListWithHeadersMixin.Flat
                  (ListWithHeadersMixin.get_serializer self objects)) ∅)
     end).
Proof.
  unfold skips_pagination, ListWithHeadersMixin.list, kept_facets, collection.
  intros ->. cbn [negb].
  destruct (prepend_head _) as [objects|e] eqn:Hobjects; [|reflexivity].
  simpl.
  destruct (ListWithHeadersMixin.paginate_queryset self objects) as [[page|]|e];
    simpl; try reflexivity.
Qed.

(** X7: with the compress header or a page size of 0 the paginator has
    no say: on a collection whose elements all have a mnemonic, [list]
    answers 200 with flat results, one for each element of the
    collection when the serializer gives one for each object. *)
Theorem list_skips_pagination :
  skips_pagination self request = true ->
  Forall (fun el => ListWithHeadersMixin.hasattr_mnemonic el = true)
    (items (collection self)) ->
  (forall l, length (ListWithHeadersMixin.get_serializer self l) = length l) ->
  exists resp results,
    ListWithHeadersMixin.list self request = Ok resp
    /\ status resp = 200
    /\ headers resp = ∅
    /\ results_of (data resp) = ListWithHeadersMixin.Flat results
    /\ length results = length (items (collection self)).
Proof.
  intros Hskip Hall Hser. rewrite (list_skipping Hskip).
  pose proof (prepend_head_total _ Hall) as Hok.
  destruct (prepend_head (items (collection self))) as [objects|e] eqn:Hobjects;
    [|discriminate].
  simpl. eexists _, (ListWithHeadersMixin.get_serializer self objects).
  split; [reflexivity|].
  destruct (results_of_respond (kept_facets self request)
              (ListWithHeadersMixin.Flat
                 (ListWithHeadersMixin.get_serializer self objects)) ∅)
    as (Hresults & Hheaders & Hstatus).
  repeat split; trivial.
  rewrite Hser. now apply prepend_head_length.
Qed.

(** X8: otherwise the paginator works on the collection with HEAD in
    front: its page is answered with the headers of the pagination
    serializer, its refusal to paginate ([None]) turns into the flat
    answer, and what it raises is raised. *)
Theorem list_paginates_head_first (objects : list A) :
  skips_pagination self request = false ->
  prepend_head (items (collection self)) = Ok objects ->
  match ListWithHeadersMixin.paginate_queryset self objects with
  | Ok (Some page) =>
      exists resp,
        ListWithHeadersMixin.list self request = Ok resp
        /\ results_of (data resp)
           = ListWithHeadersMixin.Paginated
               (fst (ListWithHeadersMixin.get_pagination_serializer self page))
        /\ headers resp
           = snd (ListWithHeadersMixin.get_pagination_serializer self page)
  | Ok None =>
      exists resp,
        ListWithHeadersMixin.list self request = Ok resp
        /\ results_of (data resp)
           = ListWithHeadersMixin.Flat
               (ListWithHeadersMixin.get_serializer self objects)
        /\ headers resp = ∅
  | Raise e => ListWithHeadersMixin.list self request = Raise e
  end.
Proof.
  intros Hskip Hobjects. rewrite (list_paginating Hskip), Hobjects. simpl.
  destruct (ListWithHeadersMixin.paginate_queryset self objects) as [[page|]|e];
    simpl; [| |reflexivity];
    eexists; (split; [reflexivity|]);
    match goal with
    | |- context [respond ?f ?r ?h] =>
        destruct (results_of_respond f r h) as (Hr & Hh & _)
    end; split; assumption.
Qed.

End ListPagination.

Lemma list_skips_pagination_witness :
  exists resp results,
    ListWithHeadersMixin.list example_list_view
      (request_with_meta {[ "HTTP_COMPRESS" := "1" ]}) = Ok resp
    /\ status resp = 200
    /\ headers resp = ∅
    /\ results_of (data resp) = ListWithHeadersMixin.Flat results
    /\ length results
       = length (ListWithHeadersMixin.items (collection example_list_view)).
Proof.
  apply (list_skips_pagination example_list_view
           (request_with_meta {[ "HTTP_COMPRESS" := "1" ]})).
  - vm_compute. reflexivity.
  - repeat constructor.
  - intros l. apply length_map.
Defined.

Lemma list_paginates_head_first_witness :
  exists resp,
    ListWithHeadersMixin.list example_list_view (request_with_meta ∅) = Ok resp
    /\ results_of (data resp) = ListWithHeadersMixin.Paginated (2, [2; 1])
    /\ headers resp = ∅.
Proof.
  apply (list_paginates_head_first example_list_view (request_with_meta ∅)
           [mkObj 2 (Some "HEAD"); mkObj 1 (Some "v1"); mkObj 3 (Some "v2")]).
  - vm_compute. reflexivity.
  - reflexivity.
Defined.

(** ** SourceVersionRetrieveUpdateView.get_object: the first released
    version *)

Lemma filter_first {X} (f : X -> bool) (before after : list X) (v : X) :
  Forall (fun u => f u = false) before -> f v = true ->
  List.filter f (before ++ v :: after) = v :: List.filter f after.
Proof.
  intros Hbefore Hv. induction Hbefore as [|u before Hu _ IH]; simpl.
  - now rewrite Hv.
  - now rewrite Hu.
Qed.

Lemma filter_none {X} (f : X -> bool) (l : list X) :
  Forall (fun u => f u = false) l -> List.filter f l = [].
Proof.
  induction 1 as [|u l Hu _ IH]; simpl; [reflexivity|]. now rewrite Hu.
Qed.

(** X9: with [is_latest], [get_object] looks at the first released
    version of the queryset, in the order of the queryset, and at no
    other: it returns it when the permission check passes and raises
    what the check raises otherwise, whatever comes after it; a
    queryset without released version is a 404. *)
Theorem get_object_first_released self queryset :
  SourceVersionRetrieveUpdateView.is_latest self = true ->
  (forall before v after,
     latest_queryset self queryset = before ++ v :: after ->
     Forall (fun u => released u = false) before ->
     released v = true ->
     SourceVersionRetrieveUpdateView.get_object self queryset
     = (SourceVersionRetrieveUpdateView.check_object_permissions self v
        ≫= fun _ => Ok v))
  /\ (Forall (fun u => released u = false) (latest_queryset self queryset) ->
      SourceVersionRetrieveUpdateView.get_object self queryset = Raise Http404).
Proof.
  intros Hlatest.
  assert (Hget : SourceVersionRetrieveUpdateView.get_object self queryset
                 = match List.filter released (latest_queryset self queryset) with
                   | [] => Raise Http404
                   | obj :: _ =>
                       SourceVersionRetrieveUpdateView.check_object_permissions
                         self obj ≫= fun _ => Ok obj
                   end).
  { unfold SourceVersionRetrieveUpdateView.get_object,
      SourceVersionRetrieveUpdateView.get_list_or_404, latest_queryset.
    rewrite Hlatest.
    destruct queryset as [q|];
      match goal with
      | |- context [List.filter released ?l] =>
          destruct (List.filter released l)
      end; reflexivity. }
  rewrite Hget. split.
  - intros before v after -> Hbefore Hv.
    now rewrite (filter_first released before after v Hbefore Hv).
  - intros Hnone. now rewrite (filter_none released _ Hnone).
Qed.

Lemma get_object_first_released_witness :
  SourceVersionRetrieveUpdateView.get_object
    (latest_view [version_head; version_1; version_2])
    (Some [version_head; version_2; version_1])
  = Ok version_2
  /\ SourceVersionRetrieveUpdateView.get_object (latest_view []) 
       (Some [version_head]) = Raise Http404.
Proof.
  split.
  - destruct (get_object_first_released
                (latest_view [version_head; version_1; version_2])
                (Some [version_head; version_2; version_1]) eq_refl)
      as [Hfirst _].
    apply (Hfirst [version_head] version_2 [version_1]).
    + reflexivity.
    + repeat constructor.
    + reflexivity.
  - apply (get_object_first_released (latest_view []) (Some [version_head])
             eq_refl).
    repeat constructor.
Defined.

(** ** SourceRetrieveUpdateDestroyView.retrieve: the children *)

Lemma filter_sublist {X} (f : X -> bool) (l : list X) :
  sublist (List.filter f l) l.
Proof.
  induction l as [|x l IH]; simpl; [constructor|].
  destruct (f x); [now apply sublist_skip | now apply sublist_cons].
Qed.

(** A window that comes back is cut out of the objects in their order,
    has [limit] elements at most, and holds included children only. *)
Lemma child_window_sound {X} `{Child X} (objects : list X) ids ir us offset
    limit cs :
  child_window objects ids ir us offset limit = Ok cs ->
  exists l,
    limit = Some l
    /\ 0 <= offset
    /\ sublist cs objects
    /\ (length cs <= Z.to_nat l)%nat
    /\ Forall (fun c => included_child ids ir us c = true) cs.
Proof.
  unfold child_window, py_add, slice. destruct limit as [l|]; [|discriminate].
  simpl. destruct ((0 <=? offset) && (0 <=? offset + l)) eqn:Hb; [|discriminate].
  apply andb_true_iff in Hb as [Ho _]. apply Z.leb_le in Ho.
  intros [= <-]. exists l. split; [reflexivity|]. split; [exact Ho|].
  set (kept := List.filter (included_child ids ir us) objects).
  assert (Hsub : sublist (firstn (Z.to_nat (offset + l - offset))
                            (skipn (Z.to_nat offset) kept)) kept).
  { etransitivity; [apply sublist_take | apply sublist_drop]. }
  split; [etransitivity; [exact Hsub | apply filter_sublist]|].
  split.
  - rewrite length_firstn. lia.
  - apply List.Forall_forall. intros c Hc.
    assert (Hin : In c kept).
    { apply list_elem_of_In. eapply elem_of_sublist; [|exact Hsub].
      now apply list_elem_of_In. }
    now apply filter_In in Hin.
Qed.

Lemma included_child_spec {X} `{Child X} ids ir us (c : X) :
  included_child ids ir us c = true ->
  child_is_active c = true
  /\ In (child_id c) ids
  /\ (child_retired c = true -> ir = true)
  /\ (forall since, us = Some since -> since <= child_updated_at c).
Proof.
  unfold included_child. rewrite !andb_true_iff.
  intros [[[Hactive Hid] Hretired] Hsince].
  split; [exact Hactive|]. split.
  - unfold id_in in Hid. apply existsb_exists in Hid as (i & Hin & Heq).
    apply Z.eqb_eq in Heq. now subst i.
  - split.
    + intros Hr. rewrite Hr in Hretired. now destruct ir.
    + intros since ->. now apply Z.leb_le.
Qed.

(** X10: the children under [concepts] are concept versions of the store
    in the order of the store, [limit] of them at most, each one active,
    a concept of the latest version, retired only if [includeRetired] is
    set, and updated at or after [updatedSince] when there is one; the
    same holds for [mappings]; and a key that is not requested is not
    set. *)
Theorem retrieve_children_window {B C M}
    (self : SourceRetrieveUpdateDestroyView.View B C M) request resp :
  SourceRetrieveUpdateDestroyView.retrieve self request = Ok resp ->
  (include_concepts request = true ->
   exists object latest l cs,
     SourceRetrieveUpdateDestroyView.get_object self = Ok object
     /\ SourceRetrieveUpdateDestroyView.get_latest_version_of self object
        = Ok latest
     /\ window_limit self = Some l
     /\ SourceRetrieveUpdateDestroyView.data_concepts (data resp)
        = Some (SourceRetrieveUpdateDestroyView.ConceptVersionDetailSerializer
                  self cs)
     /\ sublist cs (SourceRetrieveUpdateDestroyView.ConceptVersion_objects self)
     /\ (length cs <= Z.to_nat l)%nat
     /\ Forall (fun c =>
                  concept_is_active c = true
                  /\ In (concept_id c) (concepts latest)
                  /\ (concept_retired c = true -> include_retired request = true)
                  /\ (forall since,
                        SourceRetrieveUpdateDestroyView.parse_updated_since_param
                          self request = Some since ->
                        since <= concept_updated_at c)) cs)
  /\ (include_mappings request = true ->
      exists object latest l ms,
        SourceRetrieveUpdateDestroyView.get_object self = Ok object
        /\ SourceRetrieveUpdateDestroyView.get_latest_version_of self object
           = Ok latest
        /\ window_limit self = Some l
        /\ SourceRetrieveUpdateDestroyView.data_mappings (data resp)
           = Some (SourceRetrieveUpdateDestroyView.MappingDetailSerializer
                     self ms)
        /\ sublist ms (SourceRetrieveUpdateDestroyView.Mapping_objects self)
        /\ (length ms <= Z.to_nat l)%nat
        /\ Forall (fun m =>
                     mapping_is_active m = true
                     /\ In (mapping_id m) (mappings latest)
                     /\ (mapping_retired m = true ->
                         include_retired request = true)
                     /\ (forall since,
                           SourceRetrieveUpdateDestroyView.parse_updated_since_param
                             self request = Some since ->
                           since <= mapping_updated_at m)) ms)
  /\ (include_concepts request = false ->
      SourceRetrieveUpdateDestroyView.data_concepts (data resp) = None)
  /\ (include_mappings request = false ->
      SourceRetrieveUpdateDestroyView.data_mappings (data resp) = None).
Proof.
  rewrite retrieve_detail_assembler. unfold detail_assembler. intros Hr.
  apply bind_ok in Hr as (object & Hobj & Hr).
  apply bind_ok in Hr as (offset & Hoff & Hr).
  destruct (include_concepts request || include_mappings request) eqn:Hany.
  - apply bind_ok in Hr as (latest & Hlatest & Hr).
    apply bind_ok in Hr as (dc & Hdc & Hr).
    apply bind_ok in Hr as (dm & Hdm & Hr).
    injection Hr as <-. simpl.
    split; [|split; [|split]].
    + intros Hc. rewrite Hc in Hdc.
      apply bind_ok in Hdc as (cs & Hcs & [= <-]).
      apply child_window_sound in Hcs as (l & Hl & _ & Hsub & Hlen & Hall).
      exists object, latest, l, cs. repeat split; trivial.
      eapply List.Forall_impl; [|exact Hall].
      intros c Hinc. apply included_child_spec in Hinc. exact Hinc.
    + intros Hm. rewrite Hm in Hdm.
      apply bind_ok in Hdm as (ms & Hms & [= <-]).
      apply child_window_sound in Hms as (l & Hl & _ & Hsub & Hlen & Hall).
      exists object, latest, l, ms. repeat split; trivial.
      eapply List.Forall_impl; [|exact Hall].
      intros m Hinc. apply included_child_spec in Hinc. exact Hinc.
    + intros Hc. rewrite Hc in Hdc. now injection Hdc as <-.
    + intros Hm. rewrite Hm in Hdm. now injection Hdm as <-.
  - injection Hr as <-. simpl.
    apply orb_false_iff in Hany as [Hc Hm].
    split; [intros; congruence|]. split; [intros; congruence|].
    split; reflexivity.
Qed.

Lemma retrieve_children_window_witness :
  exists object latest l cs,
    SourceRetrieveUpdateDestroyView.get_object example_detail_view = Ok object
    /\ SourceRetrieveUpdateDestroyView.get_latest_version_of
         example_detail_view object = Ok latest
    /\ window_limit example_detail_view = Some l
    /\ Some [1; 3]
       = Some (SourceRetrieveUpdateDestroyView.ConceptVersionDetailSerializer
                 example_detail_view cs)
    /\ sublist cs example_concepts
    /\ (length cs <= Z.to_nat l)%nat
    /\ Forall (fun c =>
                 concept_is_active c = true
                 /\ In (concept_id c) (concepts latest)
                 /\ (concept_retired c = true ->
                     include_retired (request_with_query example_detail_query)
                     = true)
                 /\ (forall since,
                       SourceRetrieveUpdateDestroyView.parse_updated_since_param
                         example_detail_view
                         (request_with_query example_detail_query) = Some since ->
                       since <= concept_updated_at c)) cs.
Proof.
  apply (retrieve_children_window example_detail_view
           (request_with_query example_detail_query)
           (mkResponse 200 ∅
              (SourceRetrieveUpdateDestroyView.mkData "ICD-10"
                 (Some [1; 3]) (Some [7; 8])))).
  - vm_compute. reflexivity.
  - vm_compute. reflexivity.
Defined.

(** X11: the latest version is looked for only when children are
    requested. Without [includeConcepts] and [includeMappings] the answer
    is the base representation alone, whether a released version exists
    or not and whatever the offset is; with one of them, what the lookup
    of the latest version raises is raised. *)
Theorem retrieve_resolves_latest_on_demand {B C M}
    (self : SourceRetrieveUpdateDestroyView.View B C M) request object offset :
  SourceRetrieveUpdateDestroyView.get_object self = Ok object ->
  SourceRetrieveUpdateDestroyView.parse_offset self request = Ok offset ->
  (include_concepts request || include_mappings request = false ->
   SourceRetrieveUpdateDestroyView.retrieve self request
   = Ok (mkResponse 200 ∅
           (SourceRetrieveUpdateDestroyView.mkData
              (SourceRetrieveUpdateDestroyView.get_serializer self object)
              None None)))
  /\ (forall e,
        include_concepts request || include_mappings request = true ->
        SourceRetrieveUpdateDestroyView.get_latest_version_of self object
        = Raise e ->
        SourceRetrieveUpdateDestroyView.retrieve self request = Raise e).
Proof.
  intros Hobj Hoff. rewrite retrieve_detail_assembler.
  unfold detail_assembler. rewrite Hobj, Hoff. simpl. split.
  - intros ->. reflexivity.
  - intros e -> ->. reflexivity.
Qed.

Lemma retrieve_resolves_latest_on_demand_witness :
  SourceRetrieveUpdateDestroyView.retrieve
    (detail_view (Some 100) (Some 2) (Raise Http404))
    (request_with_query {[ "offset" := "-5" ]})
  = Ok (mkResponse 200 ∅
          (SourceRetrieveUpdateDestroyView.mkData "ICD-10" None None))
  /\ SourceRetrieveUpdateDestroyView.retrieve
       (detail_view (Some 100) (Some 2) (Raise Http404))
       (request_with_query {[ "includeMappings" := "true" ]})
     = Raise Http404.
Proof.
  split.
  - apply (retrieve_resolves_latest_on_demand
             (detail_view (Some 100) (Some 2) (Raise Http404))
             (request_with_query {[ "offset" := "-5" ]})
             (mkSource 1 "ICD-10") (-5)); reflexivity.
  - apply (retrieve_resolves_latest_on_demand
             (detail_view (Some 100) (Some 2) (Raise Http404))
             (request_with_query {[ "includeMappings" := "true" ]})
             (mkSource 1 "ICD-10") 0); reflexivity.
Defined.



(** X13: when children are requested, an offset that parses to a
    negative number is an [AssertionError] of the slice, and a limit that
    is configured nowhere is a [TypeError] of the addition. *)
Theorem retrieve_window_errors {B C M}
    (self : SourceRetrieveUpdateDestroyView.View B C M) request object latest
    offset :
  include_concepts request || include_mappings request = true ->
  SourceRetrieveUpdateDestroyView.get_object self = Ok object ->
  SourceRetrieveUpdateDestroyView.get_latest_version_of self object = Ok latest ->
  SourceRetrieveUpdateDestroyView.parse_offset self request = Ok offset ->
  (forall l, window_limit self = Some l -> offset < 0 ->
             SourceRetrieveUpdateDestroyView.retrieve self request
             = Raise AssertionError)
  /\ (window_limit self = None ->
      SourceRetrieveUpdateDestroyView.retrieve self request = Raise TypeError).
Proof.
  intros Hany Hobj Hlatest Hoff. rewrite retrieve_detail_assembler.
  unfold detail_assembler. rewrite Hobj, Hoff, Hany. simpl.
  rewrite Hlatest. simpl. split.
  - intros l Hl Hneg. rewrite Hl. unfold child_window, py_add, slice. simpl.
    replace (0 <=? offset) with false by (symmetry; apply Z.leb_gt; lia).
    simpl. destruct (include_concepts request) eqn:Hc; [reflexivity|].
    simpl in Hany. rewrite Hany. reflexivity.
  - intros Hl. rewrite Hl. unfold child_window, py_add. simpl.
    destruct (include_concepts request) eqn:Hc; [reflexivity|].
    simpl in Hany. rewrite Hany. reflexivity.
Qed.


Lemma retrieve_window_errors_witness :
  SourceRetrieveUpdateDestroyView.retrieve
    (detail_view (Some 100) (Some 2) (Ok version_2))
    (request_with_query {[ "includeConcepts" := "true"; "offset" := "-1" ]})
  = Raise AssertionError
  /\ SourceRetrieveUpdateDestroyView.retrieve
       (detail_view None None (Ok version_2))
       (request_with_query {[ "includeConcepts" := "true" ]})
     = Raise TypeError.
Proof.
  split.
  - pose proof (retrieve_window_errors
                  (detail_view (Some 100) (Some 2) (Ok version_2))
                  (request_with_query
                     {[ "includeConcepts" := "true"; "offset" := "-1" ]})
                  (mkSource 1 "ICD-10") version_2 (-1)
                  eq_refl eq_refl eq_refl eq_refl) as [Hnegative _].
    apply (Hnegative 2); [reflexivity | lia].
  - apply (retrieve_window_errors (detail_view None None (Ok version_2))
             (request_with_query {[ "includeConcepts" := "true" ]})
             (mkSource 1 "ICD-10") version_2 0); reflexivity.
Defined.

(** ** SourceVersionExportView: the bucket and the queue over several
    requests *)

Section ExportSequences.
Variable self : SourceVersionExportView.View.
Variable version : SourceVersion.
Hypothesis Hobj : SourceVersionExportView.get_object self = Ok version.

Local Abbreviation path := (SourceVersionExportView.export_path self version).

(** The world after the delete of a staff caller. *)
Lemma delete_staff_world request w :
  user_is_staff request = true ->
  exists w',
    SourceVersionExportView.delete self request w = (Ok (HttpResponse 204), w')
    /\ bucket w' = bucket w ∖ {[path]}
    /\ enqueued w' = enqueued w
    /\ in_flight w' = in_flight w
    /\ versions w' = versions w.
Proof.
  intros Hs. rewrite (delete_staff self request version w Hobj Hs).
  eexists. split; [reflexivity|].
  destruct (decide (path ∈ bucket w)) as [Hin|Hout]; simpl.
  - repeat split.
  - repeat split. apply set_eq. intros k.
    rewrite elem_of_difference, elem_of_singleton.
    split; [intros Hk; split; [exact Hk | congruence] | tauto].
Qed.

(** X14: the delete of a staff caller is idempotent: it answers 204
    with or without an artifact, takes the artifact of the version out
    of the bucket and no other key, and a second delete changes nothing
    more; the queue is not touched. *)
Theorem delete_idempotent request w :
  user_is_staff request = true ->
  exists w1 w2,
    SourceVersionExportView.delete self request w = (Ok (HttpResponse 204), w1)
    /\ SourceVersionExportView.delete self request w1
       = (Ok (HttpResponse 204), w2)
    /\ bucket w1 = bucket w ∖ {[path]}
    /\ bucket w2 = bucket w1
    /\ enqueued w2 = enqueued w
    /\ in_flight w2 = in_flight w.
Proof.
  intros Hs.
  destruct (delete_staff_world request w Hs)
    as (w1 & Hd1 & Hb1 & He1 & Hf1 & _).
  destruct (delete_staff_world request w1 Hs)
    as (w2 & Hd2 & Hb2 & He2 & Hf2 & _).
  exists w1, w2. repeat split; try assumption; try congruence.
  rewrite Hb2, Hb1. apply set_eq. intros k.
  rewrite !elem_of_difference. tauto.
Qed.

(** X15: concurrent requests collapse to one job. On a version that is
    not HEAD, with no artifact and no job in flight, the first GET or
    POST answers 200 and enqueues the job; a GET or POST that follows
    answers 204 and enqueues nothing. *)
Theorem export_dispatches_once request request' w :
  mnemonic version <> "HEAD" ->
  path ∉ bucket w ->
  id version ∉ in_flight w ->
  (exists r w1,
     SourceVersionExportView.get self request w = (Ok r, w1)
     /\ status r = 200
     /\ enqueued w1 = id version :: enqueued w
     /\ exists r2 r3 w2 w3,
          SourceVersionExportView.get self request' w1 = (Ok r2, w2)
          /\ SourceVersionExportView.post self request' w1 = (Ok r3, w3)
          /\ status r2 = 204 /\ status r3 = 204
          /\ enqueued w2 = enqueued w1 /\ enqueued w3 = enqueued w1)
  /\ (exists r w1,
        SourceVersionExportView.post self request w = (Ok r, w1)
        /\ status r = 200
        /\ enqueued w1 = id version :: enqueued w
        /\ exists r2 r3 w2 w3,
             SourceVersionExportView.get self request' w1 = (Ok r2, w2)
             /\ SourceVersionExportView.post self request' w1 = (Ok r3, w3)
             /\ status r2 = 204 /\ status r3 = 204
             /\ enqueued w2 = enqueued w1 /\ enqueued w3 = enqueued w1).
Proof.
  intros Hm Hout Hfree.
  set (w1 := enqueue (id version) (log_store (GetKey path) w)).
  assert (Hout1 : path ∉ bucket w1) by exact Hout.
  assert (Hbusy1 : id version ∈ in_flight w1).
  { unfold w1. simpl. apply elem_of_union_l, elem_of_singleton. reflexivity. }
  split.
  - rewrite (get_dispatched self request version w Hobj Hm Hout Hfree).
    exists (export_response self version None 200), w1.
    split; [reflexivity|]. split; [reflexivity|]. split; [reflexivity|].
    rewrite (get_queued self request' version w1 Hobj Hm Hout1 Hbusy1).
    rewrite (post_queued self request' version w1 Hobj Hm Hout1 Hbusy1).
    do 4 eexists. repeat split.
  - rewrite (post_dispatched self request version w Hobj Hm Hout Hfree).
    exists (HttpResponse 200), w1.
    split; [reflexivity|]. split; [reflexivity|]. split; [reflexivity|].
    rewrite (get_queued self request' version w1 Hobj Hm Hout1 Hbusy1).
    rewrite (post_queued self request' version w1 Hobj Hm Hout1 Hbusy1).
    do 4 eexists. repeat split.
Qed.

(** X16: the Location header of a GET on a version that is not HEAD.
    With an artifact it is the URL signed for 60 time units, the status
    is 200 and nothing is dispatched, job in flight or not; without an
    artifact the header is there too, and reads [None]. *)
Theorem get_location request w :
  mnemonic version <> "HEAD" ->
  exists r w',
    SourceVersionExportView.get self request w = (Ok r, w')
    /\ (path ∈ bucket w ->
        status r = 200
        /\ headers r !! "Location"
           = Some (SourceVersionExportView.generate_url self path 60)
        /\ enqueued w' = enqueued w
        /\ in_flight w' = in_flight w)
    /\ (path ∉ bucket w -> headers r !! "Location" = Some "None").
Proof.
  intros Hm.
  assert (Hloc : forall url st,
    headers (export_response self version url st) !! "Location"
    = Some (SourceVersionExportView.str_of_url url)).
  { intros url st. unfold export_response, set_header. simpl.
    by simplify_map_eq. }
  destruct (decide (path ∈ bucket w)) as [Hin|Hout].
  - rewrite (get_exported self request version w Hobj Hm Hin).
    do 2 eexists. split; [reflexivity|]. split; [|contradiction].
    intros _. rewrite Hloc. repeat split.
  - destruct (decide (id version ∈ in_flight w)) as [Hbusy|Hfree].
    + rewrite (get_queued self request version w Hobj Hm Hout Hbusy).
      do 2 eexists. split; [reflexivity|]. split; [contradiction|].
      intros _. now rewrite Hloc.
    + rewrite (get_dispatched self request version w Hobj Hm Hout Hfree).
      do 2 eexists. split; [reflexivity|]. split; [contradiction|].
      intros _. now rewrite Hloc.
Qed.

(** X17: after the delete of a staff caller the version is exported
    anew: the next GET finds no artifact, and with no job in flight it
    enqueues one and answers 200. *)
Theorem delete_then_get_dispatches request request' w :
  user_is_staff request = true ->
  mnemonic version <> "HEAD" ->
  id version ∉ in_flight w ->
  exists w1 r w2,
    SourceVersionExportView.delete self request w = (Ok (HttpResponse 204), w1)
    /\ SourceVersionExportView.get self request' w1 = (Ok r, w2)
    /\ status r = 200
    /\ enqueued w2 = id version :: enqueued w.
Proof.
  intros Hs Hm Hfree.
  destruct (delete_staff_world request w Hs)
    as (w1 & Hd & Hb & He & Hf & _).
  assert (Hout1 : path ∉ bucket w1).
  { rewrite Hb, elem_of_difference, elem_of_singleton. tauto. }
  assert (Hfree1 : id version ∉ in_flight w1) by now rewrite Hf.
  exists w1. do 2 eexists. split; [exact Hd|].
  split; [exact (get_dispatched self request' version w1 Hobj Hm Hout1 Hfree1)|].
  split; [reflexivity|]. simpl. now rewrite He.
Qed.

End ExportSequences.

Ltac run_export :=
  unfold SourceVersionExportView.get, SourceVersionExportView.post,
    SourceVersionExportView.delete, SourceVersionExportView.has_export,
    SourceVersionExportView.handle_export_source_version,
    SourceVersionExportView.export_source_delay,
    SourceVersionExportView.get_export_key,
    SourceVersionExportView.key_delete, bind, lift, ret, raise;
  repeat (simpl; match goal with
                 | |- context [match ?x with _ => _ end] =>
                     lazymatch x with
                     | context [match _ with _ => _ end] => fail
                     | _ => destruct x eqn:?
                     end
                 | |- context [if ?x then _ else _] =>
                     lazymatch x with
                     | context [if _ then _ else _] => fail
                     | _ => destruct x eqn:?
                     end
                 end);
  simpl.

(** X18: what the export view never touches. GET and POST leave the
    bucket and the version documents as they are, whatever they answer
    or raise; DELETE leaves the queue and the version documents as they
    are, and adds no key to the bucket. *)
Theorem export_view_footprint self request w :
  (bucket (snd (SourceVersionExportView.get self request w)) = bucket w
   /\ versions (snd (SourceVersionExportView.get self request w)) = versions w)
  /\ (bucket (snd (SourceVersionExportView.post self request w)) = bucket w
      /\ versions (snd (SourceVersionExportView.post self request w))
         = versions w)
  /\ (enqueued (snd (SourceVersionExportView.delete self request w))
      = enqueued w
      /\ in_flight (snd (SourceVersionExportView.delete self request w))
         = in_flight w
      /\ versions (snd (SourceVersionExportView.delete self request w))
         = versions w
      /\ bucket (snd (SourceVersionExportView.delete self request w))
         ⊆ bucket w).
Proof.
  split; [|split].
  - split; run_export; reflexivity.
  - split; run_export; reflexivity.
  - repeat split; run_export; try reflexivity;
      try (intros k Hk; first [exact Hk | apply elem_of_difference in Hk; tauto]).
Qed.

Lemma delete_idempotent_witness :
  exists w1 w2,
    SourceVersionExportView.delete (export_view version_1) (request_of true)
      (world_exported "export/v1") = (Ok (HttpResponse 204), w1)
    /\ SourceVersionExportView.delete (export_view version_1) (request_of true)
         w1 = (Ok (HttpResponse 204), w2)
    /\ bucket w1 = bucket (world_exported "export/v1") ∖ {[ "export/v1" ]}
    /\ bucket w2 = bucket w1
    /\ enqueued w2 = enqueued (world_exported "export/v1")
    /\ in_flight w2 = in_flight (world_exported "export/v1").
Proof.
  apply (delete_idempotent (export_view version_1) version_1 eq_refl
           (request_of true) (world_exported "export/v1")).
  reflexivity.
Defined.

Lemma export_dispatches_once_witness :
  exists r w1,
    SourceVersionExportView.get (export_view version_1) (request_of false)
      world_empty = (Ok r, w1)
    /\ status r = 200
    /\ enqueued w1 = id version_1 :: enqueued world_empty
    /\ exists r2 r3 w2 w3,
         SourceVersionExportView.get (export_view version_1) (request_of true)
           w1 = (Ok r2, w2)
         /\ SourceVersionExportView.post (export_view version_1)
              (request_of true) w1 = (Ok r3, w3)
         /\ status r2 = 204 /\ status r3 = 204
         /\ enqueued w2 = enqueued w1 /\ enqueued w3 = enqueued w1.
Proof.
  apply (export_dispatches_once (export_view version_1) version_1 eq_refl
           (request_of false) (request_of true) world_empty).
  - discriminate.
  - vm_compute. discriminate.
  - vm_compute. discriminate.
Defined.

Lemma get_location_witness :
  (exists r w',
     SourceVersionExportView.get (export_view version_1) (request_of false)
       (world_exported "export/v1") = (Ok r, w')
     /\ headers r !! "Location" = Some "https://bucket/export/v1?ttl=60")
  /\ (exists r w',
        SourceVersionExportView.get (export_view version_1) (request_of false)
          world_empty = (Ok r, w')
        /\ headers r !! "Location" = Some "None").
Proof.
  split.
  - destruct (get_location (export_view version_1) version_1 eq_refl
                (request_of false) (world_exported "export/v1"))
      as (r & w' & Hget & Hin & _); [discriminate|].
    exists r, w'. split; [exact Hget|].
    apply Hin. vm_compute. reflexivity.
  - destruct (get_location (export_view version_1) version_1 eq_refl
                (request_of false) world_empty)
      as (r & w' & Hget & _ & Hout); [discriminate|].
    exists r, w'. split; [exact Hget|].
    apply Hout. vm_compute. discriminate.
Defined.

Lemma delete_then_get_dispatches_witness :
  exists w1 r w2,
    SourceVersionExportView.delete (export_view version_1) (request_of true)
      (world_exported "export/v1") = (Ok (HttpResponse 204), w1)
    /\ SourceVersionExportView.get (export_view version_1) (request_of false)
         w1 = (Ok r, w2)
    /\ status r = 200
    /\ enqueued w2 = id version_1 :: enqueued (world_exported "export/v1").
Proof.
  apply (delete_then_get_dispatches (export_view version_1) version_1 eq_refl
           (request_of true) (request_of false) (world_exported "export/v1")).
  - reflexivity.
  - discriminate.
  - vm_compute. discriminate.
Defined.

(** ** The version list: filters, order and HEAD *)

Lemma insert_newest_first_perm v l :
  Permutation (v :: l) (insert_newest_first v l).
Proof.
  induction l as [|u tl IH]; simpl; [reflexivity|].
  destruct (created_at u <=? created_at v); [reflexivity|].
  etransitivity; [apply perm_swap | now apply perm_skip].
Qed.

Lemma insert_newest_first_sorted v l :
  newest_first l -> newest_first (insert_newest_first v l).
Proof.
  unfold newest_first. induction l as [|u tl IH]; simpl; intros Hs.
  - repeat constructor.
  - destruct (created_at u <=? created_at v) eqn:Hle.
    + apply Z.leb_le in Hle. constructor; [exact Hs | now constructor].
    + apply Z.leb_gt in Hle. apply Sorted_inv in Hs as [Htl Hhd].
      constructor; [now apply IH|].
      destruct tl as [|t tl']; simpl.
      * constructor. lia.
      * apply HdRel_inv in Hhd.
        destruct (created_at t <=? created_at v); constructor; [lia | exact Hhd].
Qed.

Lemma sort_newest_first_orders : orders_newest_first sort_newest_first.
Proof.
  intros l. unfold sort_newest_first. induction l as [|v l [IHp IHs]]; simpl.
  - split; [reflexivity | constructor].
  - split.
    + etransitivity; [apply perm_skip, IHp | apply insert_newest_first_perm].
    + now apply insert_newest_first_sorted.
Qed.

Lemma newest_first_filter (f : SourceVersion -> bool) l :
  newest_first l -> newest_first (List.filter f l).
Proof.
  intros Hs. apply StronglySorted_Sorted, StronglySorted_filter.
  now apply newest_first_strongly.
Qed.

(** On objects that all have a mnemonic, [prepend_head] returns the HEAD
    elements and then the others, HEAD in the list or not. *)
Lemma prepend_head_heads_first {A} `{Mnemonic A} (l : list A) :
  Forall (fun el => ListWithHeadersMixin.hasattr_mnemonic el = true) l ->
  ListWithHeadersMixin.prepend_head l = Ok (heads_first l).
Proof.
  intros Hall. destruct l as [|o0 tl]; [reflexivity|].
  unfold ListWithHeadersMixin.prepend_head.
  assert (H0 : ListWithHeadersMixin.hasattr_mnemonic o0 = true)
    by now inversion Hall.
  rewrite H0, (non_head_total _ Hall). unfold heads_first.
  destruct (List.filter ListWithHeadersMixin.is_head (o0 :: tl)) eqn:Hheads;
    [|reflexivity].
  simpl app. f_equal. symmetry.
  assert (Hnone : forall l0 : list A,
    List.filter ListWithHeadersMixin.is_head l0 = [] ->
    List.filter (fun el => negb (ListWithHeadersMixin.is_head el)) l0 = l0).
  { induction l0 as [|x l0 IH]; simpl; [reflexivity|].
    destruct (ListWithHeadersMixin.is_head x); simpl; [discriminate|].
    intros Hl0. now rewrite IH. }
  exact (Hnone (o0 :: tl) Hheads).
Qed.

Lemma get_queryset_members self v :
  orders_newest_first (SourceVersionListView.order_by_created_at self) ->
  In v (SourceVersionListView.get_queryset self)
  <-> In v (SourceVersionListView.super_get_queryset self)
      /\ passes_filters self v.
Proof.
  intros Horder. unfold SourceVersionListView.get_queryset, passes_filters.
  match goal with
  | |- In v (SourceVersionListView.order_by_created_at self ?q) <-> _ =>
      destruct (Horder q) as [Hperm _];
      assert (Hin : In v (SourceVersionListView.order_by_created_at self q)
                    <-> In v q)
        by (split; apply Permutation_in; [symmetry|]; exact Hperm)
  end.
  rewrite Hin. clear Hin Hperm.
  destruct (SourceVersionListView.processing_filter self) as [p|],
    (SourceVersionListView.released_filter self) as [r|];
    rewrite ?filter_In, ?Bool.eqb_true_iff.
  - split.
    + intros [[Hv Hp] Hr]. repeat split; trivial; intros ? [= <-]; trivial.
    + intros (Hv & Hp & Hr). auto.
  - split.
    + intros [Hv Hp]. repeat split; trivial; [intros ? [= <-]; trivial|].
      discriminate.
    + intros (Hv & Hp & _). auto.
  - split.
    + intros [Hv Hr]. repeat split; trivial; [discriminate|].
      intros ? [= <-]; trivial.
    + intros (Hv & _ & Hr). auto.
  - split; [intros Hv; repeat split; trivial; discriminate | tauto].
Qed.

(** X19: the version list, after [prepend_head]: the HEAD versions come
    first and the others follow newest first; the versions listed are
    those of the parent queryset that pass the processing filter and the
    released filter, a filter that is not set letting every version
    through. *)
Theorem version_list_head_then_newest self :
  orders_newest_first (SourceVersionListView.order_by_created_at self) ->
  exists heads others,
    ListWithHeadersMixin.prepend_head (SourceVersionListView.get_queryset self)
    = Ok (heads ++ others)
    /\ Forall (fun v => mnemonic v = HEAD) heads
    /\ Forall (fun v => mnemonic v <> HEAD) others
    /\ newest_first others
    /\ (forall v,
          In v (heads ++ others)
          <-> In v (SourceVersionListView.super_get_queryset self)
              /\ passes_filters self v).
Proof.
  intros Horder.
  set (q := SourceVersionListView.get_queryset self).
  exists (List.filter ListWithHeadersMixin.is_head q),
    (List.filter (fun el => negb (ListWithHeadersMixin.is_head el)) q).
  split; [|split; [|split; [|split]]].
  - apply prepend_head_heads_first. apply List.Forall_forall. reflexivity.
  - apply List.Forall_forall. intros v Hv. apply filter_In in Hv as [_ Hv].
    apply is_head_spec in Hv. now injection Hv.
  - apply List.Forall_forall. intros v Hv. apply filter_In in Hv as [_ Hv].
    intros Hm. apply negb_true_iff in Hv.
    assert (Hh : ListWithHeadersMixin.is_head v = true).
    { apply is_head_spec. unfold getattr_mnemonic, SourceVersion_mnemonic.
      now rewrite Hm. }
    congruence.
  - apply newest_first_filter. unfold q, SourceVersionListView.get_queryset.
    apply Horder.
  - intros v. rewrite <- (get_queryset_members self v Horder). fold q.
    split.
    + intros Hv. eapply Permutation_in; [|exact Hv].
      symmetry. exact (heads_first_perm q).
    + intros Hv. eapply Permutation_in; [|exact Hv].
      exact (heads_first_perm q).
Qed.

Lemma version_list_head_then_newest_witness :
  exists heads others,
    ListWithHeadersMixin.prepend_head
      (SourceVersionListView.get_queryset
         (version_list_view [version_1; version_head; version_2]
            None None))
    = Ok (heads ++ others)
    /\ Forall (fun v => mnemonic v = HEAD) heads
    /\ Forall (fun v => mnemonic v <> HEAD) others
    /\ newest_first others
    /\ (forall v,
          In v (heads ++ others)
          <-> In v (SourceVersionListView.super_get_queryset
                      (version_list_view [version_1; version_head; version_2]
                         None None))
              /\ passes_filters
                   (version_list_view [version_1; version_head; version_2]
                      None None) v).
Proof.
  apply (version_list_head_then_newest
           (version_list_view [version_1; version_head; version_2] None None)).
  exact sort_newest_first_orders.
Defined.

Example version_list_released_only :
  ListWithHeadersMixin.prepend_head
    (SourceVersionListView.get_queryset
       (version_list_view [version_1; version_head; version_2]
          None (Some true)))
  = Ok [version_1; version_2].
Proof. reflexivity. Qed.

Example version_list_all :
  ListWithHeadersMixin.prepend_head
    (SourceVersionListView.get_queryset
       (version_list_view [version_1; version_head; version_2] None None))
  = Ok [version_head; version_1; version_2].
Proof. reflexivity. Qed.
